(** * CO2LaserStabilizer: the serial-linked control loop

    A shallow embedding of the host program [stablizer.py] (PID controller,
    [set_pwm], the closed-loop tick) and of the device program
    [micropython/main.py] (command decoding, PWM actuation, the one-slot
    status mailbox read by the [monitor] thread), with the properties the
    specification states about them.

    Numbers.  The finite Python numbers are [Int z] (arbitrary precision)
    or [Float q].  A float carries the exact rational it denotes and
    arithmetic on finite numbers is exact: rounding is outside this model.
    Comparisons between ints and floats are by value, as in Python.  The
    floats that are not finite, [inf], [-inf] and [nan], are modelled where
    they enter the programs: as a JSON number that overflows on the device
    ([PyNonFinite]) and as a reading of the power meter (module [Ext]). *)

From Stdlib Require Import ZArith QArith Lia List String Ascii Bool.
From Stdlib Require Import Decimal DecimalString DecimalZ.
Import ListNotations.

Set Warnings "-register-all".

Local Open Scope Z_scope.

(** ** Python numbers *)

Module Py.

Inductive num : Type :=
| Int (z : Z)
| Float (q : Q).

Definition to_Q (n : num) : Q :=
  match n with
  | Int z => inject_Z z
  | Float q => q
  end.

(** The floats that are not finite. *)
Inductive special : Type :=
| PosInf
| NegInf
| NaN.

(** [a + b], [a - b], [a * b]: int with int stays int, anything else is
    computed on floats. *)
Definition add (a b : num) : num :=
  match a, b with
  | Int x, Int y => Int (x + y)
  | _, _ => Float (to_Q a + to_Q b)
  end.

Definition sub (a b : num) : num :=
  match a, b with
  | Int x, Int y => Int (x - y)
  | _, _ => Float (to_Q a - to_Q b)
  end.

Definition mul (a b : num) : num :=
  match a, b with
  | Int x, Int y => Int (x * y)
  | _, _ => Float (to_Q a * to_Q b)
  end.

(** [a < b], [a > b], [a <= b]. *)
Definition ltb (a b : num) : bool :=
  match to_Q a ?= to_Q b with
  | Lt => true
  | _ => false
  end%Q.

Definition gtb (a b : num) : bool := ltb b a.

Definition leb (a b : num) : bool :=
  match to_Q a ?= to_Q b with
  | Gt => false
  | _ => true
  end%Q.

(** The builtins [min(a, b)] and [max(a, b)] on two arguments: the first
    argument is kept unless the second is strictly smaller (larger). *)
Definition min (a b : num) : num := if ltb b a then b else a.
Definition max (a b : num) : num := if gtb b a then b else a.

(** Truth value of a number: zero is false. *)
Definition nonzero (n : num) : bool :=
  match n with
  | Int z => negb (z =? 0)
  | Float q => negb (Qnum q =? 0)
  end.

(** [int(x)] on a number: floats are truncated toward zero. *)
Definition trunc (n : num) : Z :=
  match n with
  | Int z => z
  | Float q => Z.quot (Qnum q) (Zpos (Qden q))
  end.

End Py.

Import Py.

Declare Scope num_scope.
Delimit Scope num_scope with num.
Infix "+" := Py.add : num_scope.
Infix "-" := Py.sub : num_scope.
Infix "*" := Py.mul : num_scope.
Infix "<?" := Py.ltb : num_scope.
Infix ">?" := Py.gtb : num_scope.
Infix "<=?" := Py.leb : num_scope.

(** ** Exceptions and results *)

Inductive exn : Type :=
| ValueError (msg : string)
| KeyError (msg : string)
| TypeError (msg : string)
| AssertionError (msg : string)
| AttributeError (msg : string)
| OverflowError (msg : string).

Inductive result (A : Type) : Type :=
| Ok (a : A)
| Raise (e : exn).
Arguments Ok {A} a.
Arguments Raise {A} e.

Definition bind {A B} (r : result A) (k : A -> result B) : result B :=
  match r with
  | Ok a => k a
  | Raise e => Raise e
  end.

Notation "x <- r ;; k" := (bind r (fun x => k))
  (at level 61, r at next level, right associativity).

(** ** The PID controller (stablizer.py, class Pid) *)

Record Pid : Type := mkPid {
  target : num;
  last_error : num;
  accumulate_error_min : num;
  accumulate_error_max : num;
  accumulate_error : num;
  output : num;
  partial : num;
  integral : num;
  derivative : num;
  p_err : num;
  i_err : num;
  d_err : num
}.

(** [Pid.__init__] with explicit [i_min] and [i_max]. *)
Definition Pid_init (partial integral derivative target i_min i_max : num) : Pid :=
  {| target := target;
     last_error := Int 0;
     accumulate_error_min := i_min;
     accumulate_error_max := i_max;
     accumulate_error := Int 0;
     output := Int 0;
     partial := partial;
     integral := integral;
     derivative := derivative;
     p_err := Int 0;
     i_err := Int 0;
     d_err := Int 0 |}.

(** [Pid(p, i, d, t)]: the defaults [i_min = -100], [i_max = 100]. *)
Definition Pid_new (partial integral derivative target : num) : Pid :=
  Pid_init partial integral derivative target (Int (-100)) (Int 100).

Definition with_target (self : Pid) (t : num) : Pid :=
  {| target := t;
     last_error := last_error self;
     accumulate_error_min := accumulate_error_min self;
     accumulate_error_max := accumulate_error_max self;
     accumulate_error := accumulate_error self;
     output := output self;
     partial := partial self;
     integral := integral self;
     derivative := derivative self;
     p_err := p_err self;
     i_err := i_err self;
     d_err := d_err self |}.

Definition with_gains (self : Pid) (p i d : num) : Pid :=
  {| target := target self;
     last_error := last_error self;
     accumulate_error_min := accumulate_error_min self;
     accumulate_error_max := accumulate_error_max self;
     accumulate_error := accumulate_error self;
     output := output self;
     partial := p;
     integral := i;
     derivative := d;
     p_err := p_err self;
     i_err := i_err self;
     d_err := d_err self |}.

Definition set_target (self : Pid) (t : num) : Pid := with_target self t.

(** [set_pidt]: the tuple is a list; the assertion on its length comes
    before any assignment. *)
Definition set_pidt (self : Pid) (pidt : list num) : result Pid :=
  match pidt with
  | [p; i; d; t] => Ok (with_target (with_gains self p i d) t)
  | _ => Raise (AssertionError "p, i, d, t value invalid")
  end.

(** [Pid.pid]: returns the output and the controller after the call. *)
Definition pid (self : Pid) (feedback : num) : num * Pid :=
  let error := (target self - feedback)%num in
  let acc := (accumulate_error self + error)%num in
  let acc := if (acc <? accumulate_error_min self)%num
             then accumulate_error_min self else acc in
  let acc := if (acc >? accumulate_error_max self)%num
             then accumulate_error_max self else acc in
  let p := (partial self * error)%num in
  let i := (integral self * acc)%num in
  let d := (derivative self * (error - last_error self))%num in
  let out := (p + i + d)%num in
  (out,
   {| target := target self;
      last_error := error;
      accumulate_error_min := accumulate_error_min self;
      accumulate_error_max := accumulate_error_max self;
      accumulate_error := acc;
      output := out;
      partial := partial self;
      integral := integral self;
      derivative := derivative self;
      p_err := p;
      i_err := i;
      d_err := d |}).

(** The controller after [n] calls with the same feedback. *)
Fixpoint pid_repeat (n : nat) (self : Pid) (feedback : num) : Pid :=
  match n with
  | O => self
  | S n' => pid_repeat n' (snd (pid self feedback)) feedback
  end.

(** The controller after one call per element of [feedbacks], in order. *)
Definition pid_run (self : Pid) (feedbacks : list num) : Pid :=
  fold_left (fun s fb => snd (pid s fb)) feedbacks self.

(** The accumulator lies in [[i_min, i_max]]. *)
Definition integral_in_range (self : Pid) : Prop :=
  (accumulate_error_min self <=? accumulate_error self)%num = true /\
  (accumulate_error self <=? accumulate_error_max self)%num = true.

(** Clamping as the specification words it: [x] limited to [[lo, hi]]. *)
Definition clamp (lo hi x : num) : num := Py.min (Py.max x lo) hi.

(** ** The controller on readings that may not be finite

    The feedback is [float(...)] of the power meter's answer, and [float]
    accepts the texts [nan] and [inf].  Module [Ext] is class [Pid] again,
    on numbers that also hold these three floats; on finite numbers it is
    the controller above ([lift], after the module).  Arithmetic and comparisons on the
    three follow IEEE 754: every comparison with [nan] is false. *)

Module Ext.

Inductive xnum : Type :=
| Fin (x : num)
| NonFin (s : special).

Definition is_finite (a : xnum) : bool :=
  match a with
  | Fin _ => true
  | NonFin _ => false
  end.

(** Sign of a finite number: [Lt] negative, [Eq] zero, [Gt] positive. *)
Definition sign (x : num) : comparison := (to_Q x ?= 0)%Q.

Definition add (a b : xnum) : xnum :=
  match a, b with
  | Fin x, Fin y => Fin (x + y)%num
  | NonFin NaN, _ | _, NonFin NaN => NonFin NaN
  | NonFin PosInf, NonFin NegInf | NonFin NegInf, NonFin PosInf => NonFin NaN
  | NonFin s, _ => NonFin s
  | Fin _, NonFin s => NonFin s
  end.

Definition sub (a b : xnum) : xnum :=
  match a, b with
  | Fin x, Fin y => Fin (x - y)%num
  | NonFin NaN, _ | _, NonFin NaN => NonFin NaN
  | NonFin PosInf, NonFin PosInf | NonFin NegInf, NonFin NegInf => NonFin NaN
  | NonFin s, _ => NonFin s
  | Fin _, NonFin PosInf => NonFin NegInf
  | Fin _, NonFin NegInf => NonFin PosInf
  end.

(** An infinity times a finite number: by the sign, [nan] for zero. *)
Definition scale (s : special) (x : num) : xnum :=
  match s, sign x with
  | NaN, _ | _, Eq => NonFin NaN
  | _, Gt => NonFin s
  | PosInf, Lt => NonFin NegInf
  | NegInf, Lt => NonFin PosInf
  end.

Definition mul (a b : xnum) : xnum :=
  match a, b with
  | Fin x, Fin y => Fin (x * y)%num
  | NonFin s, Fin y => scale s y
  | Fin x, NonFin s => scale s x
  | NonFin NaN, NonFin _ | NonFin _, NonFin NaN => NonFin NaN
  | NonFin PosInf, NonFin PosInf | NonFin NegInf, NonFin NegInf => NonFin PosInf
  | NonFin PosInf, NonFin NegInf | NonFin NegInf, NonFin PosInf => NonFin NegInf
  end.

Definition ltb (a b : xnum) : bool :=
  match a, b with
  | Fin x, Fin y => (x <? y)%num
  | NonFin NaN, _ | _, NonFin NaN => false
  | NonFin NegInf, NonFin NegInf => false
  | NonFin NegInf, _ => true
  | NonFin PosInf, _ => false
  | Fin _, NonFin PosInf => true
  | Fin _, NonFin NegInf => false
  end.

Definition gtb (a b : xnum) : bool := ltb b a.

Definition leb (a b : xnum) : bool :=
  match a, b with
  | Fin x, Fin y => (x <=? y)%num
  | NonFin NaN, _ | _, NonFin NaN => false
  | NonFin NegInf, _ => true
  | NonFin PosInf, NonFin PosInf => true
  | NonFin PosInf, _ => false
  | Fin _, NonFin PosInf => true
  | Fin _, NonFin NegInf => false
  end.

Record Pid : Type := mkPid {
  target : xnum;
  last_error : xnum;
  accumulate_error_min : xnum;
  accumulate_error_max : xnum;
  accumulate_error : xnum;
  output : xnum;
  partial : xnum;
  integral : xnum;
  derivative : xnum;
  p_err : xnum;
  i_err : xnum;
  d_err : xnum
}.

Definition Pid_init (partial integral derivative target i_min i_max : xnum) : Pid :=
  {| target := target;
     last_error := Fin (Int 0);
     accumulate_error_min := i_min;
     accumulate_error_max := i_max;
     accumulate_error := Fin (Int 0);
     output := Fin (Int 0);
     partial := partial;
     integral := integral;
     derivative := derivative;
     p_err := Fin (Int 0);
     i_err := Fin (Int 0);
     d_err := Fin (Int 0) |}.

Definition Pid_new (partial integral derivative target : xnum) : Pid :=
  Pid_init partial integral derivative target (Fin (Int (-100))) (Fin (Int 100)).

Definition set_target (self : Pid) (t : xnum) : Pid :=
  {| target := t;
     last_error := last_error self;
     accumulate_error_min := accumulate_error_min self;
     accumulate_error_max := accumulate_error_max self;
     accumulate_error := accumulate_error self;
     output := output self;
     partial := partial self;
     integral := integral self;
     derivative := derivative self;
     p_err := p_err self;
     i_err := i_err self;
     d_err := d_err self |}.

Definition set_pidt (self : Pid) (pidt : list xnum) : result Pid :=
  match pidt with
  | [p; i; d; t] =>
      Ok {| target := t;
            last_error := last_error self;
            accumulate_error_min := accumulate_error_min self;
            accumulate_error_max := accumulate_error_max self;
            accumulate_error := accumulate_error self;
            output := output self;
            partial := p;
            integral := i;
            derivative := d;
            p_err := p_err self;
            i_err := i_err self;
            d_err := d_err self |}
  | _ => Raise (AssertionError "p, i, d, t value invalid")
  end.

(** [Pid.pid]. *)
Definition pid (self : Pid) (feedback : xnum) : xnum * Pid :=
  let error := sub (target self) feedback in
  let acc := add (accumulate_error self) error in
  let acc := if ltb acc (accumulate_error_min self)
             then accumulate_error_min self else acc in
  let acc := if gtb acc (accumulate_error_max self)
             then accumulate_error_max self else acc in
  let p := mul (partial self) error in
  let i := mul (integral self) acc in
  let d := mul (derivative self) (sub error (last_error self)) in
  let out := add (add p i) d in
  (out,
   {| target := target self;
      last_error := error;
      accumulate_error_min := accumulate_error_min self;
      accumulate_error_max := accumulate_error_max self;
      accumulate_error := acc;
      output := out;
      partial := partial self;
      integral := integral self;
      derivative := derivative self;
      p_err := p;
      i_err := i;
      d_err := d |}).

Fixpoint pid_repeat (n : nat) (self : Pid) (feedback : xnum) : Pid :=
  match n with
  | O => self
  | S n' => pid_repeat n' (snd (pid self feedback)) feedback
  end.

Definition pid_run (self : Pid) (feedbacks : list xnum) : Pid :=
  fold_left (fun s fb => snd (pid s fb)) feedbacks self.

(** The accumulator lies in [[i_min, i_max]]. *)
Definition integral_in_range (self : Pid) : Prop :=
  leb (accumulate_error_min self) (accumulate_error self) = true /\
  leb (accumulate_error self) (accumulate_error_max self) = true.

(** The accumulator lies in its range, and the bounds and the target are
    finite. *)
Definition bounded (self : Pid) : Prop :=
  integral_in_range self /\
  is_finite (target self) = true /\
  is_finite (accumulate_error_min self) = true /\
  is_finite (accumulate_error_max self) = true.

(** Sequences of calls on a controller; a failed assertion leaves it as it
    was. *)
Inductive pid_call : Type :=
| CallPid (feedback : xnum)
| CallSetTarget (t : xnum)
| CallSetPidt (pidt : list xnum).

Definition pid_apply (self : Pid) (c : pid_call) : Pid :=
  match c with
  | CallPid feedback => snd (pid self feedback)
  | CallSetTarget t => set_target self t
  | CallSetPidt pidt =>
      match set_pidt self pidt with
      | Ok self' => self'
      | Raise _ => self
      end
  end.

Definition pid_calls (self : Pid) (calls : list pid_call) : Pid :=
  fold_left pid_apply calls self.

(** The feedback or target a call brings is finite. *)
Definition call_finite (c : pid_call) : bool :=
  match c with
  | CallPid feedback => is_finite feedback
  | CallSetTarget t => is_finite t
  | CallSetPidt [_; _; _; t] => is_finite t
  | CallSetPidt _ => true
  end.

End Ext.

(** A controller with finite fields, seen in [Ext]. *)
Definition lift (self : Pid) : Ext.Pid :=
  {| Ext.target := Ext.Fin (target self);
     Ext.last_error := Ext.Fin (last_error self);
     Ext.accumulate_error_min := Ext.Fin (accumulate_error_min self);
     Ext.accumulate_error_max := Ext.Fin (accumulate_error_max self);
     Ext.accumulate_error := Ext.Fin (accumulate_error self);
     Ext.output := Ext.Fin (output self);
     Ext.partial := Ext.Fin (partial self);
     Ext.integral := Ext.Fin (integral self);
     Ext.derivative := Ext.Fin (derivative self);
     Ext.p_err := Ext.Fin (p_err self);
     Ext.i_err := Ext.Fin (i_err self);
     Ext.d_err := Ext.Fin (d_err self) |}.


(** ** Python values and JSON text

    The values [json.loads] can return.  A [str] holds ASCII text; a [dict]
    has string keys and is kept as an association list in insertion order
    with one entry per key. *)

Local Open Scope string_scope.

Inductive value : Type :=
| PyNone
| PyBool (b : bool)
| PyNum (n : num)
| PyStr (s : string)
| PyList (l : list value)
| PyDict (d : list (string * value))
| PyNonFinite (x : special).   (* the floats inf, -inf and nan *)

Fixpoint dict_get (k : string) (d : list (string * value)) : option value :=
  match d with
  | [] => None
  | (k', v) :: r => if String.eqb k k' then Some v else dict_get k r
  end.

(** [d[k] = v]: an existing key keeps its place. *)
Fixpoint dict_set (k : string) (v : value) (d : list (string * value))
  : list (string * value) :=
  match d with
  | [] => [(k, v)]
  | (k', v') :: r =>
      if String.eqb k k' then (k', v) :: r else (k', v') :: dict_set k v r
  end.

(** [str(z)] for an int. *)
Definition str_int (z : Z) : string := NilZero.string_of_int (Z.to_int z).

Definition hex_digit (n : N) : ascii :=
  match n with
  | 0 => "0" | 1 => "1" | 2 => "2" | 3 => "3" | 4 => "4" | 5 => "5"
  | 6 => "6" | 7 => "7" | 8 => "8" | 9 => "9" | 10 => "a" | 11 => "b"
  | 12 => "c" | 13 => "d" | 14 => "e" | _ => "f"
  end%N%char.

(** One character of a JSON string literal as [json.dumps] writes it. *)
Definition escape_char (c : ascii) : string :=
  match c with
  | "034"%char => String "\" (String "034" "")
  | "\"%char => "\\"
  | "010"%char => "\n"
  | "013"%char => "\r"
  | "009"%char => "\t"
  | "008"%char => "\b"
  | "012"%char => "\f"
  | _ =>
      let n := N_of_ascii c in
      if ((32 <=? n) && (n <=? 126))%N then String c ""
      else "\u00" ++ String (hex_digit (n / 16)) (String (hex_digit (n mod 16)) "")
  end.

Fixpoint escape_body (s : string) : string :=
  match s with
  | EmptyString => ""
  | String c r => escape_char c ++ escape_body r
  end.

Definition encode_str (s : string) : string :=
  String "034" (escape_body s ++ String "034" "").

Section Dumps.

(** [float.__repr__], the shortest decimal text that reads back as the same
    float, belongs to the runtime. *)
Variable float_repr : Q -> string.

(** [json.dumps] with its default separators. *)
Fixpoint json_dumps (v : value) : string :=
  match v with
  | PyNone => "null"
  | PyBool true => "true"
  | PyBool false => "false"
  | PyNum (Int z) => str_int z
  | PyNum (Float q) => float_repr q
  | PyNonFinite PosInf => "Infinity"
  | PyNonFinite NegInf => "-Infinity"
  | PyNonFinite NaN => "NaN"
  | PyStr s => encode_str s
  | PyList l =>
      "[" ++
      (fix items (l : list value) : string :=
         match l with
         | [] => ""
         | x :: r =>
             match r with
             | [] => json_dumps x
             | _ => json_dumps x ++ ", " ++ items r
             end
         end) l ++ "]"
  | PyDict d =>
      "{" ++
      (fix members (d : list (string * value)) : string :=
         match d with
         | [] => ""
         | (k, x) :: r =>
             match r with
             | [] => encode_str k ++ ": " ++ json_dumps x
             | _ => encode_str k ++ ": " ++ json_dumps x ++ ", " ++ members r
             end
         end) d ++ "}"
  end.

End Dumps.

(** ** Reading JSON text ([json.loads])

    The grammar of RFC 8259 as the [json] module reads it: a number without
    fraction and exponent is an int, any other number a float (the exact
    value of the decimal text); a repeated key keeps its first place and its
    last value.  [NaN] and [Infinity] are not read, and a [\u] escape is
    decoded to UTF-8 for code points outside the surrogate range only. *)

Definition is_json_ws (c : ascii) : bool :=
  match c with
  | " "%char | "009"%char | "010"%char | "013"%char => true
  | _ => false
  end.

Fixpoint skip_ws (s : string) : string :=
  match s with
  | String c r => if is_json_ws c then skip_ws r else s
  | EmptyString => s
  end.

Definition digit_of (c : ascii) : option (uint -> uint) :=
  match c with
  | "0" => Some D0 | "1" => Some D1 | "2" => Some D2 | "3" => Some D3
  | "4" => Some D4 | "5" => Some D5 | "6" => Some D6 | "7" => Some D7
  | "8" => Some D8 | "9" => Some D9
  | _ => None
  end%char.

(** The longest run of decimal digits at the head of [s]. *)
Fixpoint read_digits (s : string) : uint * string :=
  match s with
  | String c r =>
      match digit_of c with
      | Some D => let '(d, r') := read_digits r in (D d, r')
      | None => (Nil, s)
      end
  | EmptyString => (Nil, s)
  end.

(** [0|[1-9][0-9]*] *)
Definition read_int_part (s : string) : option (uint * string) :=
  match s with
  | String "0"%char r => Some (D0 Nil, r)
  | _ =>
      match read_digits s with
      | (Nil, _) => None
      | (d, r) => Some (d, r)
      end
  end.

(** [(\.[0-9]+)?] *)
Definition read_frac (s : string) : option uint * string :=
  match s with
  | String "."%char r =>
      match read_digits r with
      | (Nil, _) => (None, s)
      | (d, r') => (Some d, r')
      end
  | _ => (None, s)
  end.

(** [([eE][-+]?[0-9]+)?] *)
Definition read_exp (s : string) : option Z * string :=
  match s with
  | String c r =>
      if (Ascii.eqb c "e" || Ascii.eqb c "E")%char then
        let '(neg, r1) :=
          match r with
          | String "-"%char r1 => (true, r1)
          | String "+"%char r1 => (false, r1)
          | _ => (false, r)
          end in
        match read_digits r1 with
        | (Nil, _) => (None, s)
        | (d, r2) => (Some (if neg then - Z.of_uint d else Z.of_uint d), r2)
        end
      else (None, s)
  | EmptyString => (None, s)
  end.

(** [m * 10^e] as a rational. *)
Definition Q_of_decimal (m e : Z) : Q :=
  if (0 <=? e)%Z then inject_Z (m * 10 ^ e) else m # Z.to_pos (10 ^ (- e)).

Definition read_number (s : string) : option (num * string) :=
  let '(neg, s1) :=
    match s with
    | String "-"%char r => (true, r)
    | _ => (false, s)
    end in
  match read_int_part s1 with
  | None => None
  | Some (i, s2) =>
      let '(f, s3) := read_frac s2 in
      let '(e, s4) := read_exp s3 in
      let sign (z : Z) := if neg then - z else z in
      match f, e with
      | None, None => Some (Int (sign (Z.of_uint i)), s4)
      | _, _ =>
          let fd := match f with Some d => d | None => Nil end in
          let nf := Z.of_nat (nb_digits fd) in
          let m := Z.of_uint i * 10 ^ nf + Z.of_uint fd in
          let ex := match e with Some x => x | None => 0 end in
          Some (Float (Q_of_decimal (sign m) (ex - nf)), s4)
      end
  end.

(** Where a number literal stops: not before a digit, a point or an
    exponent mark. *)
Definition number_end (rest : string) : bool :=
  match rest with
  | EmptyString => true
  | String c _ =>
      match digit_of c with
      | Some _ => false
      | None => negb (Ascii.eqb c "." || Ascii.eqb c "e" || Ascii.eqb c "E")
      end
  end.

(** A number literal starts with a digit or a minus sign. *)
Definition starts_number (s : string) : bool :=
  match s with
  | String c _ =>
      match digit_of c with
      | Some _ => true
      | None => Ascii.eqb c "-"
      end
  | EmptyString => false
  end.

Definition hex_of (c : ascii) : option N :=
  let n := N_of_ascii c in
  (if (48 <=? n) && (n <=? 57) then Some (n - 48)
   else if (97 <=? n) && (n <=? 102) then Some (n - 87)
   else if (65 <=? n) && (n <=? 70) then Some (n - 55)
   else None)%N.

Definition hex4 (a b c d : ascii) : option N :=
  match hex_of a, hex_of b, hex_of c, hex_of d with
  | Some x, Some y, Some z, Some w => Some (((x * 16 + y) * 16 + z) * 16 + w)%N
  | _, _, _, _ => None
  end.

(** UTF-8 bytes of a code point of the basic plane; no surrogates. *)
Definition utf8 (n : N) : option string :=
  let byte (k : N) := ascii_of_N k in
  (if n <? 128 then Some (String (byte n) "")
   else if n <? 2048 then
     Some (String (byte (192 + n / 64)) (String (byte (128 + n mod 64)) ""))
   else if (55296 <=? n) && (n <=? 57343) then None
   else
     Some (String (byte (224 + n / 4096))
            (String (byte (128 + (n / 64) mod 64))
              (String (byte (128 + n mod 64)) ""))))%N.

(** The body of a string literal, after its opening quote, up to and
    including the closing quote. *)
Fixpoint read_string (s : string) : option (string * string) :=
  let cons (c : ascii) (k : option (string * string)) :=
    match k with
    | Some (body, rest) => Some (String c body, rest)
    | None => None
    end in
  match s with
  | EmptyString => None
  | String "034"%char r => Some ("", r)
  | String "\"%char r =>
      match r with
      | String "034"%char r' => cons "034"%char (read_string r')
      | String "\"%char r' => cons "\"%char (read_string r')
      | String "/"%char r' => cons "/"%char (read_string r')
      | String "b"%char r' => cons "008"%char (read_string r')
      | String "f"%char r' => cons "012"%char (read_string r')
      | String "n"%char r' => cons "010"%char (read_string r')
      | String "r"%char r' => cons "013"%char (read_string r')
      | String "t"%char r' => cons "009"%char (read_string r')
      | String "u"%char (String h1 (String h2 (String h3 (String h4 r')))) =>
          match hex4 h1 h2 h3 h4 with
          | Some n =>
              match utf8 n, read_string r' with
              | Some bytes, Some (body, rest) => Some (bytes ++ body, rest)
              | _, _ => None
              end
          | None => None
          end
      | _ => None
      end
  | String c r =>
      if (N_of_ascii c <? 32)%N then None else cons c (read_string r)
  end.

(** The floats of the device are IEEE binary32, as in the MicroPython
    ports for the boards [_display.py] names: a number text with a
    fraction or an exponent whose value reaches [2^128] in magnitude reads
    as an infinity.  Below that the exact decimal value is kept. *)
Definition FLOAT_OVERFLOW : Z := 2 ^ 128.

Definition number_value (x : num) : value :=
  match x with
  | Int _ => PyNum x
  | Float q =>
      if Qle_bool (inject_Z FLOAT_OVERFLOW) q then PyNonFinite PosInf
      else if Qle_bool q (inject_Z (- FLOAT_OVERFLOW)) then PyNonFinite NegInf
      else PyNum x
  end.

Definition read_literal (lit : string) (v : value) (s : string)
  : option (value * string) :=
  if String.prefix lit s
  then Some (v, substring (String.length lit) (String.length s - String.length lit) s)
  else None.

Fixpoint parse_value (fuel : nat) (s : string) {struct fuel}
  : option (value * string) :=
  match fuel with
  | O => None
  | S n =>
      match s with
      | EmptyString => None
      | String "034"%char r =>
          match read_string r with
          | Some (str, r') => Some (PyStr str, r')
          | None => None
          end
      | String "{"%char r =>
          match skip_ws r with
          | String "}"%char r' => Some (PyDict [], r')
          | String "034"%char r' =>
              match parse_members n r' with
              | Some (pairs, r'') =>
                  Some (PyDict (fold_left (fun d kv => dict_set (fst kv) (snd kv) d)
                                          pairs []), r'')
              | None => None
              end
          | _ => None
          end
      | String "["%char r =>
          match skip_ws r with
          | String "]"%char r' => Some (PyList [], r')
          | r0 =>
              match parse_elements n r0 with
              | Some (items, r') => Some (PyList items, r')
              | None => None
              end
          end
      | String "n"%char _ => read_literal "null" PyNone s
      | String "t"%char _ => read_literal "true" (PyBool true) s
      | String "f"%char _ => read_literal "false" (PyBool false) s
      | _ =>
          match read_number s with
          | Some (x, r) => Some (number_value x, r)
          | None => None
          end
      end
  end

with parse_members (fuel : nat) (s : string) {struct fuel}
  : option (list (string * value) * string) :=
  match fuel with
  | O => None
  | S n =>
      match read_string s with
      | None => None
      | Some (key, r) =>
          match skip_ws r with
          | String ":"%char r1 =>
              match parse_value n (skip_ws r1) with
              | None => None
              | Some (v, r2) =>
                  match skip_ws r2 with
                  | String "}"%char r3 => Some ([(key, v)], r3)
                  | String ","%char r3 =>
                      match skip_ws r3 with
                      | String "034"%char r4 =>
                          match parse_members n r4 with
                          | Some (pairs, r5) => Some ((key, v) :: pairs, r5)
                          | None => None
                          end
                      | _ => None
                      end
                  | _ => None
                  end
              end
          | _ => None
          end
      end
  end

with parse_elements (fuel : nat) (s : string) {struct fuel}
  : option (list value * string) :=
  match fuel with
  | O => None
  | S n =>
      match parse_value n s with
      | None => None
      | Some (v, r) =>
          match skip_ws r with
          | String "]"%char r1 => Some ([v], r1)
          | String ","%char r1 =>
              match parse_elements n (skip_ws r1) with
              | Some (items, r2) => Some (v :: items, r2)
              | None => None
              end
          | _ => None
          end
      end
  end.

(** [json.loads]: [None] stands for the exception it raises on a text
    that is not JSON ([ValueError] on the device). *)
Definition json_loads (s : string) : option value :=
  match parse_value (S (String.length s)) (skip_ws s) with
  | Some (v, r) =>
      match skip_ws r with
      | EmptyString => Some v
      | _ => None
      end
  | None => None
  end.

(** The text [set_pwm] writes for two ints, without the final newline. *)
Definition command_text (f d : Z) : string :=
  "{" ++ encode_str "freq" ++ ": " ++ str_int f ++ ", "
      ++ encode_str "duty" ++ ": " ++ str_int d ++ "}".

(** ** Builtins used by the two programs *)

(** Truth value of an object ([not cmd] is its negation). *)
Definition truthy (v : value) : bool :=
  match v with
  | PyNone => false
  | PyBool b => b
  | PyNum n => Py.nonzero n
  | PyStr s => negb (String.eqb s "")
  | PyList l => match l with [] => false | _ => true end
  | PyDict d => match d with [] => false | _ => true end
  | PyNonFinite _ => true
  end.

(** Whitespace removed by [str.strip()]. *)
Definition is_space (c : ascii) : bool :=
  match c with
  | " "%char | "009"%char | "010"%char | "011"%char | "012"%char | "013"%char => true
  | _ => false
  end.

Fixpoint lstrip (s : string) : string :=
  match s with
  | String c r => if is_space c then lstrip r else s
  | EmptyString => s
  end.

Fixpoint rstrip (s : string) : string :=
  match s with
  | String c r =>
      match rstrip r with
      | EmptyString => if is_space c then "" else String c ""
      | r' => String c r'
      end
  | EmptyString => s
  end.

Definition strip (s : string) : string := rstrip (lstrip s).

(** Messages of the exceptions the runtime itself raises.  Their wording
    belongs to the interpreter; nothing below depends on it. *)
Definition msg_not_iterable : string := "object isn't iterable".
Definition msg_bad_index : string := "indices must be integers".
Definition msg_int_syntax : string := "invalid syntax for integer with base 10".
Definition msg_int_type : string := "can't convert to int".
Definition msg_int_inf : string := "can't convert inf to int".
Definition msg_int_nan : string := "can't convert NaN to int".
Definition msg_no_attribute : string :=
  "'module' object has no attribute 'JSONDecodeError'".

(** [str(e)] on the device: the argument the exception was built with. *)
Definition str_exn (e : exn) : string :=
  match e with
  | ValueError m | KeyError m | TypeError m | AssertionError m
  | AttributeError m | OverflowError m => m
  end.

(** [int(s)] on a string: optional blanks, an optional sign, decimal
    digits. *)
Definition int_of_str (s : string) : result Z :=
  let s := strip s in
  let '(neg, s1) :=
    match s with
    | String "-"%char r => (true, r)
    | String "+"%char r => (false, r)
    | _ => (false, s)
    end in
  match read_digits s1 with
  | (Nil, _) => Raise (ValueError msg_int_syntax)
  | (d, EmptyString) => Ok (if neg then - Z.of_uint d else Z.of_uint d)%Z
  | (_, _) => Raise (ValueError msg_int_syntax)
  end.

(** [int(x)]: a finite float is truncated, an infinite one and [nan] are
    refused. *)
Definition py_int (v : value) : result Z :=
  match v with
  | PyNum n => Ok (Py.trunc n)
  | PyNonFinite NaN => Raise (ValueError msg_int_nan)
  | PyNonFinite _ => Raise (OverflowError msg_int_inf)
  | PyBool b => Ok (if b then 1 else 0)%Z
  | PyStr s => int_of_str s
  | PyNone | PyList _ | PyDict _ => Raise (TypeError msg_int_type)
  end.

Definition value_is_str (k : string) (v : value) : bool :=
  match v with
  | PyStr s => String.eqb k s
  | _ => false
  end.

(** [k in obj] for a string [k]. *)
Definition py_in (k : string) (obj : value) : result bool :=
  match obj with
  | PyDict d => Ok (match dict_get k d with Some _ => true | None => false end)
  | PyList l => Ok (existsb (value_is_str k) l)
  | PyStr s => Ok (match String.index 0 k s with Some _ => true | None => false end)
  | PyNone | PyBool _ | PyNum _ | PyNonFinite _ => Raise (TypeError msg_not_iterable)
  end.

(** [obj[k]] for a string [k]. *)
Definition py_getitem (obj : value) (k : string) : result value :=
  match obj with
  | PyDict d =>
      match dict_get k d with
      | Some v => Ok v
      | None => Raise (KeyError k)
      end
  | _ => Raise (TypeError msg_bad_index)
  end.

(** [x / y] on numbers (true division, [y] not zero). *)
Definition truediv (x y : num) : num := Float (to_Q x / to_Q y).

Definition two_digits (n : Z) : string :=
  if (n <? 10)%Z then "0" ++ str_int n else str_int n.

(** [f"{q:.2f}"]: two decimals, the value rounded half to even. *)
Definition format_2f (x : num) : string :=
  let n := Qnum (to_Q x) in
  let d := Zpos (Qden (to_Q x)) in
  let a := (Z.abs n * 100)%Z in
  let k := (a / d)%Z in
  let r := (a mod d)%Z in
  let k := if ((2 * r >? d) || ((2 * r =? d) && Z.odd k))%Z then (k + 1)%Z else k in
  (if (n <? 0)%Z then "-" else "") ++ str_int (k / 100) ++ "." ++ two_digits (k mod 100).

Definition newline : string := String "010" "".

(** ** The host program (stablizer.py) *)

(** The serial port to the micro-controller: the byte strings written to
    it, oldest first. *)
Definition serial : Type := list string.

Definition DEFAULT_PID_VALUES : num * num * num * num :=
  (Float 150000, Float 7000, Float 0, Float 0).

(** The fields of [st.session_state] the control loop reads and writes. *)
Record session : Type := mkSession {
  micro_controller : serial;
  pid_controller : Pid;
  time_list : list num;
  power_list : list num;
  current_pwm_duty : num;
  closed_loop_running : bool
}.

Definition session_init : session :=
  let '(p, i, d, t) := DEFAULT_PID_VALUES in
  {| micro_controller := [];
     pid_controller := Pid_new p i d t;
     time_list := [];
     power_list := [];
     current_pwm_duty := Int 0;
     closed_loop_running := false |}.

Section Host.

Variable float_repr : Q -> string.

Definition set_pwm (freq duty : num) (micro_controller : serial) : serial :=
  let pwm_cmd := PyDict [("freq", PyNum freq); ("duty", PyNum duty)] in
  let pwm_str := json_dumps float_repr pwm_cmd in
  let byte_message := pwm_str ++ newline in
  (micro_controller ++ [byte_message])%list.

(** The button of the open-loop section: [percent] is the duty slider. *)
Definition open_loop_set (pwm_freq percent : Z) (st : session) : session :=
  let pwm_duty := Int (Py.trunc (truediv (Int percent * Int 65535)%num (Int 100))) in
  {| micro_controller := set_pwm (Int pwm_freq) pwm_duty (micro_controller st);
     pid_controller := pid_controller st;
     time_list := time_list st;
     power_list := power_list st;
     current_pwm_duty := pwm_duty;
     closed_loop_running := closed_loop_running st |}.

(** One pass of the measuring loop: the power just read and the clock are
    recorded, then, when closed-loop control is on, the controller is
    called and the new duty cycle is sent. *)
Definition control_tick (pwm_freq : Z) (power_value current_time : num)
    (st : session) : session :=
  let time_list' := (time_list st ++ [current_time])%list in
  let power_list' := (power_list st ++ [power_value])%list in
  if closed_loop_running st then
    let '(out, pid') := pid (pid_controller st) power_value in
    let new_duty_cycle := (current_pwm_duty st + out)%num in
    let new_duty_cycle := Py.max (Int 0) (Py.min (Int 65535) new_duty_cycle) in
    {| micro_controller := set_pwm (Int pwm_freq) new_duty_cycle (micro_controller st);
       pid_controller := pid';
       time_list := time_list';
       power_list := power_list';
       current_pwm_duty := current_pwm_duty st;
       closed_loop_running := closed_loop_running st |}
  else
    {| micro_controller := micro_controller st;
       pid_controller := pid_controller st;
       time_list := time_list';
       power_list := power_list';
       current_pwm_duty := current_pwm_duty st;
       closed_loop_running := closed_loop_running st |}.

(** The duty cycle a tick with closed-loop control on sends. *)
Definition tick_duty (power_value : num) (st : session) : num :=
  Py.max (Int 0)
         (Py.min (Int 65535)
                 (current_pwm_duty st + fst (pid (pid_controller st) power_value))%num).

End Host.

(** ** The device program (micropython/main.py) *)

Record MCmd : Type := mkMCmd {
  rendered : bool;
  title : string;
  message : string;
  time : Z
}.

(** What the device does to the outside, in the order it does it. *)
Inductive event : Type :=
| Publish (m : MCmd)              (* monitor_cmd = MCmd(...) *)
| SetFreq (freq : Z)              (* laser_pwm.freq(freq) *)
| SetDutyU16 (duty : Z)           (* laser_pwm.duty_u16(duty) *)
| Draw (title message : string)   (* display.draw_message(title, message) *)
| SleepMs (ms : Z).               (* time.sleep_ms(ms) *)

Record device : Type := mkDevice {
  monitor_cmd : MCmd;
  trace : list event
}.

Definition emit (e : event) (st : device) : device :=
  {| monitor_cmd := monitor_cmd st; trace := (trace st ++ [e])%list |}.

Definition publish (m : MCmd) (st : device) : device :=
  {| monitor_cmd := m; trace := (trace st ++ [Publish m])%list |}.

(** The state when the main loop starts: the PWM duty has been set to 0 and
    the first status is waiting. *)
Definition device_init : device :=
  publish {| rendered := false; title := "init";
             message := "init success, starting main loop...";
             time := 1000 |}
          {| monitor_cmd := mkMCmd true "" "" 0; trace := [SetDutyU16 0] |}.

(** One pass of [monitor]'s loop.  [draw] is the exception
    [display.draw_message] raises, if it does. *)
Definition monitor (draw : option exn) (time_interval : Z) (st : device) : device :=
  if negb (rendered (monitor_cmd st)) then
    match draw with
    | None =>
        let m := monitor_cmd st in
        let st := emit (Draw (title m) (message m)) st in
        let st := {| monitor_cmd := mkMCmd true (title m) (message m) (time m);
                     trace := trace st |} in
        let st := emit (SleepMs (time m + 1)) st in
        emit (SleepMs time_interval) st
    | Some e =>
        let st := publish {| rendered := false; title := "M Error";
                             message := str_exn e; time := 1000 |} st in
        emit (SleepMs 1000) st
    end
  else emit (SleepMs time_interval) st.

(** [load_cmd].  The [json] module of the device has no
    [JSONDecodeError]: when [json.loads] raises, evaluating the [except]
    clause raises [AttributeError], which leaves the function.  [None] is
    returned only for the text [null]. *)
Definition load_cmd (message : string) : result value :=
  match json_loads message with
  | Some cmd => Ok cmd
  | None => Raise (AttributeError msg_no_attribute)
  end.

(** Lines 96 to 105 of the main loop, which the specification calls
    decoding: from the line read to the validated pair [(freq, duty)], or
    to the exception that leaves the [try] block. *)
Definition decode (line : string) : result (Z * Z) :=
  let message := strip line in
  cmd <- load_cmd message ;;
  if negb (truthy cmd) then Raise (ValueError "invalid cmd") else
  has_freq <- py_in "freq" cmd ;;
  has_duty <- (if has_freq then py_in "duty" cmd else Ok false) ;;
  if negb has_freq || negb has_duty then Raise (KeyError "missing freq or duty") else
  vf <- py_getitem cmd "freq" ;;
  freq <- py_int vf ;;
  vd <- py_getitem cmd "duty" ;;
  duty <- py_int vd ;;
  if ((freq <? 1000) || (freq >? 1000000) || (duty <? 0) || (duty >? 65535))%Z
  then Raise (ValueError "invalid freq or duty")
  else Ok (freq, duty).

(** What [poll.poll(1000)] gave: an exception, nothing within the second,
    or a readable stream whose next line is [line]. *)
Inductive poll_result : Type :=
| PollRaise (e : exn)
| PollTimeout
| PollLine (line : string).

(** One pass of the main loop.  [now] is [time.time()], a whole number of
    seconds on the device.  The PWM driver is taken to accept every pair
    that passed the range test. *)
Definition main_loop (now : Z) (p : poll_result) (st : device) : device :=
  match p with
  | PollRaise e =>
      publish {| rendered := false; title := "P Error";
                 message := str_exn e; time := 1000 |} st
  | PollLine line =>
      match decode line with
      | Ok (freq, duty) =>
          let st :=
            publish {| rendered := false;
                       title := "PWM " ++ str_int now;
                       message := "FREQ: " ++ str_int freq ++ newline ++ "DUTY: "
                                  ++ format_2f (truediv (Int duty * Int 100)%num (Int 65535))
                                  ++ "%";
                       time := 10 |} st in
          let st := emit (SetFreq freq) st in
          emit (SetDutyU16 duty) st
      | Raise e =>
          publish {| rendered := false; title := "C Error";
                     message := str_exn e; time := 1000 |} st
      end
  | PollTimeout =>
      publish {| rendered := false; title := "no cmd " ++ str_int now;
                 message := "waiting for cmd..."; time := 10 |} st
  end.

(** Runs of the device: the main loop and the monitor thread take turns in
    any order, each pass being one atomic step.  The passes that touch
    [monitor_cmd] hold the lock, with one exception: the assignment made
    when [poll] raises (main.py 87-92) is not under the lock and may fall
    inside a pass of the monitor.  A run in which [poll] raises is taken
    here with that assignment between two passes of the monitor. *)
Inductive action : Type :=
| MainPass (now : Z) (p : poll_result)
| MonitorPass (draw : option exn) (time_interval : Z).

Definition step (a : action) (st : device) : device :=
  match a with
  | MainPass now p => main_loop now p st
  | MonitorPass draw time_interval => monitor draw time_interval st
  end.

Definition run (acts : list action) (st : device) : device :=
  fold_left (fun s a => step a s) acts st.

(** A pass in which [poll] does not raise: every assignment to
    [monitor_cmd] it makes is under the lock. *)
Definition poll_returns (a : action) : bool :=
  match a with
  | MainPass _ (PollRaise _) => false
  | _ => true
  end.

Definition is_draw (e : event) : bool :=
  match e with Draw _ _ => true | _ => false end.

Definition is_publish (e : event) : bool :=
  match e with Publish _ => true | _ => false end.

Definition is_pwm (e : event) : bool :=
  match e with SetFreq _ | SetDutyU16 _ => true | _ => false end.

Definition count (f : event -> bool) (tr : list event) : nat :=
  List.length (filter f tr).

(** 1 when the slot holds a status not yet shown, else 0. *)
Definition pending (st : device) : nat :=
  if rendered (monitor_cmd st) then 0%nat else 1%nat.

(** The range test of the main loop. *)
Definition in_range (freq duty : Z) : bool :=
  negb ((freq <? 1000) || (freq >? 1000000) || (duty <? 0) || (duty >? 65535))%Z.

(** ** A [float_repr] for the closed examples

    The exact decimal text of a rational whose expansion is finite, with at
    least one digit after the point, as [repr] writes such floats. *)

Fixpoint frac_digits (fuel : nat) (r d : Z) : string :=
  match fuel with
  | O => ""
  | S k =>
      if (r =? 0)%Z then ""
      else str_int (r * 10 / d) ++ frac_digits k ((r * 10) mod d)%Z d
  end.

Definition repr_decimal (q : Q) : string :=
  let n := Qnum q in
  let d := Zpos (Qden q) in
  let a := Z.abs n in
  let fd := frac_digits 20 (a mod d)%Z d in
  (if (n <? 0)%Z then "-" else "") ++ str_int (a / d) ++ "."
  ++ (match fd with EmptyString => "0" | _ => fd end).

(** A string between double quotes. *)
Definition quoted (s : string) : string := String "034" (s ++ String "034" "").

(** The line [{"freq": f, "duty": d}] with the number texts [f] and [d],
    newline included. *)
Definition command_line (f d : string) : string :=
  "{" ++ quoted "freq" ++ ": " ++ f ++ ", " ++ quoted "duty" ++ ": " ++ d ++ "}"
  ++ newline.

(** The session after [set_pidt((150000.0, 7000.0, 0.0, 1.0))] and the
    closed-loop toggle, the stored duty still 0. *)
Definition session_example : session :=
  {| micro_controller := [];
     pid_controller := Pid_new (Float 150000) (Float 7000) (Float 0) (Float 1);
     time_list := [];
     power_list := [];
     current_pwm_duty := Int 0;
     closed_loop_running := true |}.


(** The events a step added: the trace of [st'] after that of [st]. *)
Definition new_events (st st' : device) : list event :=
  skipn (List.length (trace st)) (trace st').

(** The status of the success path of the main loop. *)
Definition success_status (now freq duty : Z) : MCmd :=
  {| rendered := false;
     title := "PWM " ++ str_int now;
     message := "FREQ: " ++ str_int freq ++ newline ++ "DUTY: "
                ++ format_2f (truediv (Int duty * Int 100)%num (Int 65535)) ++ "%";
     time := 10 |}.

(** The status of its error handler. *)
Definition error_status (e : exn) : MCmd :=
  {| rendered := false; title := "C Error"; message := str_exn e; time := 1000 |}.

(** ** Further observations on device traces *)

(** A PWM call with an argument inside the range the main loop checks. *)
Definition pwm_ok (e : event) : bool :=
  match e with
  | SetFreq f => ((1000 <=? f) && (f <=? 1000000))%Z
  | SetDutyU16 d => ((0 <=? d) && (d <=? 65535))%Z
  | _ => true
  end.

(** The status assigned last to [monitor_cmd], if any. *)
Fixpoint last_publish (tr : list event) : option MCmd :=
  match tr with
  | [] => None
  | e :: r =>
      match last_publish r with
      | Some m => Some m
      | None => match e with Publish m => Some m | _ => None end
      end
  end.

(** Every [Draw] of the trace shows the title and the body of the status
    published last before it. *)
Fixpoint draws_latest (shown : option MCmd) (tr : list event) : bool :=
  match tr with
  | [] => true
  | Publish m :: r => draws_latest (Some m) r
  | Draw t b :: r =>
      match shown with
      | Some m => String.eqb t (title m) && String.eqb b (message m) && draws_latest shown r
      | None => false
      end
  | _ :: r => draws_latest shown r
  end.

(** The state of the slot agrees with the trace: the status in
    [monitor_cmd] has the title and body of the last one published, and so
    far every drawing showed the status published last before it. *)
Definition slot_agrees (st : device) : Prop :=
  draws_latest None (trace st) = true /\
  exists m, last_publish (trace st) = Some m /\
            title m = title (monitor_cmd st) /\
            message m = message (monitor_cmd st).


(** ** The operator's actions on the host page *)

Inductive host_action : Type :=
| SetPwmButton (pwm_freq percent : Z)                 (* open-loop button *)
| SetPidButton (p_gain i_gain d_gain target_power : num)
| ClosedLoopToggle (on : bool)
| Tick (pwm_freq : Z) (power_value current_time : num).  (* one pass of the loop *)

Section HostRuns.

Variable float_repr : Q -> string.

Definition host_step (st : session) (a : host_action) : session :=
  match a with
  | SetPwmButton pwm_freq percent => open_loop_set float_repr pwm_freq percent st
  | SetPidButton p_gain i_gain d_gain target_power =>
      {| micro_controller := micro_controller st;
         pid_controller :=
           match set_pidt (pid_controller st) [p_gain; i_gain; d_gain; target_power] with
           | Ok c => c
           | Raise _ => pid_controller st
           end;
         time_list := time_list st;
         power_list := power_list st;
         current_pwm_duty := current_pwm_duty st;
         closed_loop_running := closed_loop_running st |}
  | ClosedLoopToggle on =>
      {| micro_controller := micro_controller st;
         pid_controller := pid_controller st;
         time_list := time_list st;
         power_list := power_list st;
         current_pwm_duty := current_pwm_duty st;
         closed_loop_running := on |}
  | Tick pwm_freq power_value current_time =>
      control_tick float_repr pwm_freq power_value current_time st
  end.

Definition host_run (st : session) (acts : list host_action) : session :=
  fold_left host_step acts st.

(** A line the host may write: a record of an int frequency and a duty
    inside [[0, 65535]]. *)
Definition host_line (line : string) : Prop :=
  exists (f : Z) (d : num),
    line = (json_dumps float_repr (PyDict [("freq", PyNum (Int f)); ("duty", PyNum d)])
            ++ newline)%string /\
    (Int 0 <=? d)%num = true /\ (d <=? Int 65535)%num = true.

End HostRuns.

(** The clock values and the readings of the ticks of a run, in order. *)
Definition tick_times (acts : list host_action) : list num :=
  flat_map (fun a => match a with Tick _ _ t => [t] | _ => [] end) acts.

Definition tick_powers (acts : list host_action) : list num :=
  flat_map (fun a => match a with Tick _ p _ => [p] | _ => [] end) acts.

(** The duty the open-loop button computes from the slider. *)
Definition slider_duty (percent : Z) : Z :=
  Py.trunc (truediv (Int percent * Int 65535)%num (Int 100)).

(** The stored duty after a run: that of the last press of the open-loop
    button, else the one before the run. *)
Definition last_button_duty (init : num) (acts : list host_action) : num :=
  fold_left (fun d a => match a with
                        | SetPwmButton _ percent => Int (slider_duty percent)
                        | _ => d
                        end) acts init.

(** The sliders keep the frequency in [[1000, 100000]] and the duty
    percentage in [[0, 100]]. *)
Definition slider_ok (a : host_action) : Prop :=
  match a with
  | SetPwmButton pwm_freq percent =>
      (1000 <= pwm_freq <= 100000)%Z /\ (0 <= percent <= 100)%Z
  | Tick pwm_freq _ _ => (1000 <= pwm_freq <= 100000)%Z
  | _ => True
  end.

(** ** The status screen (micropython/_display.py)

    The frame buffer driver is seen through the calls made to it, in
    order.  Texts are ASCII, one character per byte, drawn in the 8 by 8
    font of the driver. *)

Inductive display_op : Type :=
| Fill (c : Z)                  (* display.fill(c) *)
| Text (s : string) (x y : Z)   (* display.text(s, x, y) *)
| HLine (x y w c : Z)           (* display.hline(x, y, w, c) *)
| Rect (x y w h c : Z)          (* display.rect(x, y, w, h, c) *)
| Show.                         (* display.show() *)

Record Display : Type := mkDisplay {
  _width : Z;
  _height : Z
}.

(** [Display()]: 128 by 64. *)
Definition Display_default : Display := {| _width := 128; _height := 64 |}.

Definition TEXT_SIZE : Z := 8.

(** [math.ceil(x)]. *)
Definition py_ceil (x : num) : Z :=
  match x with
  | Int z => z
  | Float q => (- ((- Qnum q) / Zpos (Qden q)))%Z
  end.

(** [len(s)]. *)
Definition len (s : string) : Z := Z.of_nat (String.length s).

Definition draw_border (self : Display) (linewidth : Z) : list display_op :=
  [Rect 0 0 (_width self) (_height self) linewidth].

Definition draw_header (self : Display) (title : string) (linewidth : Z)
    (with_border refresh : bool) : list display_op :=
  let text_position := Py.trunc (Int (_height self) * Float 0.06)%num in
  let line_height := Py.trunc (Int (_height self) * Float 0.22)%num in
  ([Text title text_position text_position]
   ++ [HLine 0 line_height (_width self) linewidth]
   ++ (if with_border then draw_border self 1 else [])
   ++ (if refresh then [Show] else []))%list.

(** [s.split(sep)] for a separator of one character. *)
Fixpoint split_char (sep : ascii) (s : string) : list string :=
  match s with
  | EmptyString => [EmptyString]
  | String c r =>
      if Ascii.eqb c sep then EmptyString :: split_char sep r
      else
        match split_char sep r with
        | h :: t => String c h :: t
        | [] => [String c EmptyString]
        end
  end.

(** [c in s] for one character. *)
Fixpoint has_char (c : ascii) (s : string) : bool :=
  match s with
  | EmptyString => false
  | String c' r => Ascii.eqb c' c || has_char c r
  end.

(** [int(70 * (r + 1) / (rows + 1))] *)
Definition y_of (rows r : Z) : Z :=
  Py.trunc (truediv (Int 70 * (Int r + Int 1))%num (Int rows + Int 1)%num).

(** [int((15 - len(m)) / 2) * 8 + 3] *)
Definition x_of (m : string) : Z :=
  (Py.trunc (truediv (Int 15 - Int (len m))%num (Int 2)) * 8 + 3)%Z.

(** [range(n)] *)
Definition range (n : Z) : list Z := map Z.of_nat (seq 0 (Z.to_nat n)).

(** The body of [draw_message] for a message of at most 60 characters. *)
Definition draw_message_short (self : Display) (title message : string)
  : list display_op :=
  let formated_message :=
    if has_char "010" message then split_char "010" message
    else
      let rows := py_ceil (truediv (Int (len message)) (Int 15)) in
      map (fun i => substring (Z.to_nat (15 * i)) 15 message) (range rows) in
  let rows := Z.of_nat (List.length formated_message) in
  let y_position := map (y_of rows) (range rows) in
  let x_position := map x_of formated_message in
  ([Fill 0]
   ++ draw_header self title 1 true false
   ++ map (fun mxy => Text (fst mxy) (fst (snd mxy)) (snd (snd mxy)))
          (combine formated_message (combine x_position y_position))
   ++ [Show])%list.

(** [draw_message]: a longer message is replaced by a fixed one of 16
    characters, for which the call made again takes the short path. *)
Definition draw_message (self : Display) (title message : string)
  : list display_op :=
  if (60 <? len message)%Z
  then draw_message_short self title "message too long"
  else draw_message_short self title message.

(** The text drawn by an operation lies inside the screen. *)
Definition text_inside (self : Display) (op : display_op) : Prop :=
  match op with
  | Text s x y =>
      (0 <= x /\ x + TEXT_SIZE * len s <= _width self /\
       0 <= y /\ y + TEXT_SIZE <= _height self)%Z
  | _ => True
  end.

(** The texts drawn, in order. *)
Definition texts_of (ops : list display_op) : list string :=
  flat_map (fun op => match op with Text s _ _ => [s] | _ => [] end) ops.

(** A row of the body: at most 15 characters, drawn inside the screen and
    below the line of the header. *)
Definition row_fits (op : display_op) : Prop :=
  match op with
  | Text s x y => len s <= 15 /\ 3 <= x /\ x + 8 * len s <= 123 /\ 14 <= y <= 56
  | _ => False
  end.

(** * Properties *)

(** ** Order facts on Python numbers *)

Section NumOrder.

Local Open Scope Q_scope.

Lemma ltb_lt (a b : num) : Py.ltb a b = true <-> to_Q a < to_Q b.
Proof.
  unfold Py.ltb. rewrite Qlt_alt.
  destruct (to_Q a ?= to_Q b); split; congruence.
Qed.

Lemma ltb_ge (a b : num) : Py.ltb a b = false <-> to_Q b <= to_Q a.
Proof.
  rewrite <- Bool.not_true_iff_false, ltb_lt. split.
  - apply Qnot_lt_le.
  - apply Qle_not_lt.
Qed.

Lemma leb_le (a b : num) : Py.leb a b = true <-> to_Q a <= to_Q b.
Proof.
  unfold Py.leb. rewrite Qle_alt.
  destruct (to_Q a ?= to_Q b); split; congruence.
Qed.

Lemma leb_refl (a : num) : Py.leb a a = true.
Proof. apply leb_le, Qle_refl. Qed.

Lemma leb_trans (a b c : num) :
  Py.leb a b = true -> Py.leb b c = true -> Py.leb a c = true.
Proof. rewrite !leb_le. apply Qle_trans. Qed.

(** The code's two successive tests leave a value inside [[lo, hi]] as soon
    as the interval is not empty. *)
Lemma clamp_in_range (lo hi x : num) :
  Py.leb lo hi = true ->
  Py.leb lo (clamp lo hi x) = true /\ Py.leb (clamp lo hi x) hi = true.
Proof.
  intros Hlh. unfold clamp, Py.min, Py.max, Py.gtb.
  destruct (Py.ltb x lo) eqn:E1.
  - destruct (Py.ltb hi lo) eqn:E2.
    + apply ltb_lt in E2. apply leb_le in Hlh.
      exfalso. exact (Qlt_not_le _ _ E2 Hlh).
    + split; [apply leb_refl | exact Hlh].
  - destruct (Py.ltb hi x) eqn:E2.
    + split; [exact Hlh | apply leb_refl].
    + split; apply leb_le; [apply ltb_ge in E1 | apply ltb_ge in E2]; assumption.
Qed.

End NumOrder.

(** ** The PID controller *)

Lemma pid_accumulate_error (self : Pid) (feedback : num) :
  accumulate_error (snd (pid self feedback)) =
  clamp (accumulate_error_min self) (accumulate_error_max self)
        (accumulate_error self + (target self - feedback))%num.
Proof. reflexivity. Qed.

Lemma pid_bounds_kept (self : Pid) (feedback : num) :
  accumulate_error_min (snd (pid self feedback)) = accumulate_error_min self /\
  accumulate_error_max (snd (pid self feedback)) = accumulate_error_max self.
Proof. split; reflexivity. Qed.

Lemma integral_in_range_bounds (self : Pid) :
  integral_in_range self ->
  Py.leb (accumulate_error_min self) (accumulate_error_max self) = true.
Proof. intros [H1 H2]. exact (leb_trans _ _ _ H1 H2). Qed.

Lemma pid_step_in_range (self : Pid) (feedback : num) :
  integral_in_range self -> integral_in_range (snd (pid self feedback)).
Proof.
  intros H. apply integral_in_range_bounds in H.
  unfold integral_in_range.
  destruct (pid_bounds_kept self feedback) as [-> ->].
  rewrite pid_accumulate_error.
  apply clamp_in_range, H.
Qed.

Lemma pid_run_in_range (feedbacks : list num) :
  forall self, integral_in_range self -> integral_in_range (pid_run self feedbacks).
Proof.
  induction feedbacks as [|fb fbs IH]; intros self H; simpl.
  - exact H.
  - apply IH, pid_step_in_range, H.
Qed.

Lemma pid_repeat_in_range (n : nat) (feedback : num) :
  forall self, integral_in_range self -> integral_in_range (pid_repeat n self feedback).
Proof.
  induction n as [|n IH]; intros self H; simpl.
  - exact H.
  - apply IH, pid_step_in_range, H.
Qed.

Lemma pid_repeat_max_kept (n : nat) (feedback : num) :
  forall self,
    accumulate_error_max (pid_repeat n self feedback) = accumulate_error_max self.
Proof.
  induction n as [|n IH]; intros self; simpl; [reflexivity|].
  now rewrite IH.
Qed.

(** ** Decimal text of an int, written and read back *)

Section DecimalText.

Local Open Scope string_scope.

Lemma read_digits_no_digit (rest : string) :
  number_end rest = true -> read_digits rest = (Nil, rest).
Proof.
  destruct rest as [|c r]; simpl; [reflexivity|].
  destruct (digit_of c); [discriminate | reflexivity].
Qed.

Lemma read_digits_string_of_uint (d : uint) (rest : string) :
  number_end rest = true ->
  read_digits (NilEmpty.string_of_uint d ++ rest) = (d, rest).
Proof.
  intros Hrest. induction d; simpl; try rewrite IHd; try reflexivity.
  apply read_digits_no_digit, Hrest.
Qed.

Lemma read_frac_none (rest : string) :
  number_end rest = true -> read_frac rest = (None, rest).
Proof.
  destruct rest as [|c r]; [reflexivity|].
  unfold number_end, read_frac.
  destruct c as [[|] [|] [|] [|] [|] [|] [|] [|]]; simpl; try reflexivity;
    discriminate.
Qed.

Lemma read_exp_none (rest : string) :
  number_end rest = true -> read_exp rest = (None, rest).
Proof.
  destruct rest as [|c r]; [reflexivity|].
  unfold number_end, read_exp.
  destruct c as [[|] [|] [|] [|] [|] [|] [|] [|]]; simpl; try reflexivity;
    discriminate.
Qed.

Lemma to_uint_normal (p : positive) : unorm (Pos.to_uint p) = Pos.to_uint p.
Proof.
  pose proof (DecimalPos.Unsigned.to_of (Pos.to_uint p)) as H.
  rewrite DecimalPos.Unsigned.of_to in H. simpl in H. now symmetry.
Qed.

Lemma to_uint_head (p : positive) (u : uint) : Pos.to_uint p <> D0 u.
Proof.
  intros E. pose proof (to_uint_normal p) as H.
  rewrite E, DecimalFacts.unorm_D0 in H. unfold unorm in H.
  destruct (nzhead u) eqn:Hu.
  - apply (DecimalPos.Unsigned.to_uint_nonzero p). rewrite E, <- H. reflexivity.
  - exact (DecimalFacts.nzhead_nonzero u _ Hu).
  - discriminate H.
  - discriminate H.
  - discriminate H.
  - discriminate H.
  - discriminate H.
  - discriminate H.
  - discriminate H.
  - discriminate H.
  - discriminate H.
Qed.

Lemma read_int_part_pos (p : positive) (rest : string) :
  number_end rest = true ->
  read_int_part (NilEmpty.string_of_uint (Pos.to_uint p) ++ rest)
  = Some (Pos.to_uint p, rest).
Proof.
  intros Hrest.
  pose proof (to_uint_head p) as Hhead.
  pose proof (DecimalPos.Unsigned.to_uint_nonnil p) as Hnil.
  pose proof (read_digits_string_of_uint (Pos.to_uint p) rest Hrest) as Hread.
  destruct (Pos.to_uint p) as [|u|u|u|u|u|u|u|u|u|u];
    try (exfalso; apply Hnil; reflexivity);
    try (exfalso; apply (Hhead u); reflexivity);
    unfold read_int_part; simpl NilEmpty.string_of_uint in *;
    simpl append in *; cbv iota; rewrite Hread; reflexivity.
Qed.

Lemma of_uint_to_uint (p : positive) : Z.of_uint (Pos.to_uint p) = Zpos p.
Proof.
  unfold Z.of_uint. now rewrite DecimalPos.Unsigned.of_to.
Qed.

(** [str(z)] followed by anything that cannot continue a number reads back
    as the int [z]. *)
Lemma read_number_str_int (z : Z) (rest : string) :
  number_end rest = true ->
  read_number (str_int z ++ rest) = Some (Int z, rest).
Proof.
  intros Hrest. unfold str_int.
  destruct z as [|p|p]; simpl Z.to_int.
  - change (read_number (String "0" rest) = Some (Int 0, rest)).
    unfold read_number, read_int_part; cbv beta iota.
    rewrite (read_frac_none _ Hrest); cbv beta iota.
    rewrite (read_exp_none _ Hrest); reflexivity.
  - unfold NilZero.string_of_int, NilZero.string_of_uint.
    pose proof (read_int_part_pos p rest Hrest) as Hint.
    pose proof (to_uint_head p) as Hhead.
    pose proof (DecimalPos.Unsigned.to_uint_nonnil p) as Hnil.
    unfold read_number.
    destruct (Pos.to_uint p) as [|u|u|u|u|u|u|u|u|u|u] eqn:E;
      try (exfalso; apply Hnil; reflexivity);
      try (exfalso; apply (Hhead u); reflexivity);
      simpl NilEmpty.string_of_uint in *; simpl append in *; cbv iota;
      rewrite Hint; cbv beta iota;
      rewrite (read_frac_none _ Hrest); cbv beta iota;
      rewrite (read_exp_none _ Hrest); cbv beta iota;
      rewrite <- E, of_uint_to_uint; reflexivity.
  - unfold NilZero.string_of_int, NilZero.string_of_uint.
    pose proof (read_int_part_pos p rest Hrest) as Hint.
    pose proof (DecimalPos.Unsigned.to_uint_nonnil p) as Hnil.
    unfold read_number.
    destruct (Pos.to_uint p) as [|u|u|u|u|u|u|u|u|u|u] eqn:E;
      try (exfalso; apply Hnil; reflexivity);
      simpl NilEmpty.string_of_uint in *; simpl append in *; cbv iota;
      rewrite Hint; cbv beta iota;
      rewrite (read_frac_none _ Hrest); cbv beta iota;
      rewrite (read_exp_none _ Hrest); cbv beta iota;
      rewrite <- E, of_uint_to_uint; reflexivity.
Qed.

End DecimalText.

(** ** The command line, written by the host and read by the device *)

Section CommandText.

Local Open Scope string_scope.

Variable float_repr : Q -> string.

Lemma append_assoc (a b c : string) : (a ++ b) ++ c = a ++ b ++ c.
Proof. induction a as [|x a IH]; simpl; [reflexivity | now rewrite IH]. Qed.

Lemma json_dumps_command (f d : Z) :
  json_dumps float_repr (PyDict [("freq", PyNum (Int f)); ("duty", PyNum (Int d))])
  = command_text f d.
Proof.
  unfold command_text. simpl. now rewrite append_assoc.
Qed.

Lemma starts_number_str_int (z : Z) (rest : string) :
  starts_number (str_int z ++ rest) = true.
Proof.
  unfold str_int. destruct z as [|p|p]; try reflexivity.
  simpl Z.to_int. unfold NilZero.string_of_int, NilZero.string_of_uint.
  destruct (Pos.to_uint p); reflexivity.
Qed.

Lemma skip_ws_number (s : string) : starts_number s = true -> skip_ws s = s.
Proof.
  destruct s as [|c r]; [reflexivity|].
  destruct c as [[|] [|] [|] [|] [|] [|] [|] [|]]; simpl; try reflexivity;
    discriminate.
Qed.

Lemma parse_value_number (n : nat) (s : string) :
  starts_number s = true ->
  parse_value (S n) s =
  match read_number s with
  | Some (x, r) => Some (number_value x, r)
  | None => None
  end.
Proof.
  destruct s as [|c r]; [discriminate|].
  destruct c as [[|] [|] [|] [|] [|] [|] [|] [|]]; simpl starts_number;
    intros H; try discriminate H; reflexivity.
Qed.

Lemma parse_value_str_int (n : nat) (z : Z) (rest : string) :
  number_end rest = true ->
  parse_value (S n) (skip_ws (str_int z ++ rest)) = Some (PyNum (Int z), rest).
Proof.
  intros Hrest.
  rewrite (skip_ws_number _ (starts_number_str_int z rest)).
  rewrite (parse_value_number _ _ (starts_number_str_int z rest)).
  now rewrite (read_number_str_int z rest Hrest).
Qed.

Lemma command_text_eq (f d : Z) :
  command_text f d =
  String "{" (String "034" ("freq" ++ String "034" (String ":" (String " "
    (str_int f ++ String "," (String " " (String "034" ("duty" ++ String "034"
      (String ":" (String " " (str_int d ++ "}"))))))))))).
Proof.
  unfold command_text.
  change (encode_str "freq") with (String "034" ("freq" ++ String "034" "")).
  change (encode_str "duty") with (String "034" ("duty" ++ String "034" "")).
  reflexivity.
Qed.

Lemma parse_members_number (n : nat) (key s rest : string) (z : Z) :
  read_string s = Some (key, String ":" (String " " (str_int z ++ rest))) ->
  number_end rest = true ->
  parse_members (S (S n)) s =
  match skip_ws rest with
  | String "}"%char r3 => Some ([(key, PyNum (Int z))], r3)
  | String ","%char r3 =>
      match skip_ws r3 with
      | String "034"%char r4 =>
          match parse_members (S n) r4 with
          | Some (pairs, r5) => Some ((key, PyNum (Int z)) :: pairs, r5)
          | None => None
          end
      | _ => None
      end
  | _ => None
  end.
Proof.
  intros Hkey Hrest.
  change (parse_members (S (S n)) s) with
    (match read_string s with
     | None => None
     | Some (key, r) =>
         match skip_ws r with
         | String ":"%char r1 =>
             match parse_value (S n) (skip_ws r1) with
             | None => None
             | Some (v, r2) =>
                 match skip_ws r2 with
                 | String "}"%char r3 => Some ([(key, v)], r3)
                 | String ","%char r3 =>
                     match skip_ws r3 with
                     | String "034"%char r4 =>
                         match parse_members (S n) r4 with
                         | Some (pairs, r5) => Some ((key, v) :: pairs, r5)
                         | None => None
                         end
                     | _ => None
                     end
                 | _ => None
                 end
             end
         | _ => None
         end
     end).
  rewrite Hkey.
  change (skip_ws (String ":" (String " " (str_int z ++ rest))))
    with (String ":" (String " " (str_int z ++ rest))).
  cbv beta iota.
  change (skip_ws (String " " (str_int z ++ rest)))
    with (skip_ws (str_int z ++ rest)).
  now rewrite (parse_value_str_int n z rest Hrest).
Qed.

Lemma read_string_freq (r : string) :
  read_string ("freq" ++ String "034" r) = Some ("freq", r).
Proof. reflexivity. Qed.

Lemma read_string_duty (r : string) :
  read_string ("duty" ++ String "034" r) = Some ("duty", r).
Proof. reflexivity. Qed.

Lemma parse_value_command (n : nat) (f d : Z) :
  parse_value (S (S (S (S n)))) (command_text f d)
  = Some (PyDict [("freq", PyNum (Int f)); ("duty", PyNum (Int d))], "").
Proof.
  rewrite command_text_eq.
  change (parse_value (S (S (S (S n)))) (String "{" (String "034" ?r)))
    with (match parse_members (S (S (S n))) r with
          | Some (pairs, r'') =>
              Some (PyDict (fold_left (fun d kv => dict_set (fst kv) (snd kv) d)
                                      pairs []), r'')
          | None => None
          end).
  erewrite parse_members_number;
    [ | apply read_string_freq | reflexivity ].
  cbn [skip_ws is_json_ws].
  erewrite parse_members_number;
    [ | apply read_string_duty | reflexivity ].
  reflexivity.
Qed.

Lemma rstrip_brace_newline (s : string) :
  rstrip (s ++ String "}" newline) = s ++ "}".
Proof.
  induction s as [|c s IH]; [reflexivity|].
  cbn [append rstrip]. rewrite IH.
  destruct s; reflexivity.
Qed.

Lemma strip_command (f d : Z) :
  strip (command_text f d ++ newline) = command_text f d.
Proof.
  unfold strip.
  replace (lstrip (command_text f d ++ newline)) with (command_text f d ++ newline)
    by (rewrite command_text_eq; reflexivity).
  unfold command_text.
  rewrite <- !append_assoc.
  rewrite (append_assoc _ "}" newline).
  apply rstrip_brace_newline.
Qed.

Lemma json_loads_command (f d : Z) :
  json_loads (command_text f d)
  = Some (PyDict [("freq", PyNum (Int f)); ("duty", PyNum (Int d))]).
Proof.
  assert (Hlen : exists n, String.length (command_text f d) = S (S (S n))).
  { rewrite command_text_eq. cbn [String.length append]. eexists. reflexivity. }
  destruct Hlen as [n Hn].
  unfold json_loads. rewrite Hn.
  replace (skip_ws (command_text f d)) with (command_text f d)
    by (rewrite command_text_eq; reflexivity).
  now rewrite parse_value_command.
Qed.

Lemma decode_command (f d : Z) :
  (1000 <= f <= 1000000)%Z -> (0 <= d <= 65535)%Z ->
  decode (command_text f d ++ newline) = Ok (f, d).
Proof.
  intros Hf Hd. unfold decode, load_cmd.
  rewrite strip_command, json_loads_command.
  cbn.
  replace (f <? 1000)%Z with false by (symmetry; apply Z.ltb_ge; lia).
  replace (f >? 1000000)%Z with false by (symmetry; rewrite Z.gtb_ltb; apply Z.ltb_ge; lia).
  replace (d <? 0)%Z with false by (symmetry; apply Z.ltb_ge; lia).
  replace (d >? 65535)%Z with false by (symmetry; rewrite Z.gtb_ltb; apply Z.ltb_ge; lia).
  reflexivity.
Qed.

End CommandText.

(** ** Claims about the PID controller *)

(** C4.  [Pid.pid(feedback)] takes [error = target - feedback], adds it to
    the accumulator and limits the sum to [[i_min, i_max]], returns
    [p_gain*error + i_gain*integral + d_gain*(error - last_error)] with the
    limited accumulator and the error of the call before, and keeps [error]
    as [last_error]; gains, target and bounds are left as they were. *)
Theorem pid_computes (self : Pid) (feedback : num) :
  let error := (target self - feedback)%num in
  let acc := clamp (accumulate_error_min self) (accumulate_error_max self)
                   (accumulate_error self + error)%num in
  let out := (partial self * error + integral self * acc
              + derivative self * (error - last_error self))%num in
  let self' := snd (pid self feedback) in
  fst (pid self feedback) = out /\
  accumulate_error self' = acc /\
  last_error self' = error /\
  output self' = out /\
  p_err self' = (partial self * error)%num /\
  i_err self' = (integral self * acc)%num /\
  d_err self' = (derivative self * (error - last_error self))%num /\
  target self' = target self /\
  partial self' = partial self /\
  integral self' = integral self /\
  derivative self' = derivative self /\
  accumulate_error_min self' = accumulate_error_min self /\
  accumulate_error_max self' = accumulate_error_max self.
Proof.
  cbv zeta. unfold pid, clamp, Py.min, Py.max, Py.gtb. cbn [fst snd].
  repeat split.
Qed.

(** With gains (1, 0, 0), target 10 and feedback 10 the output is zero. *)
Example pid_at_target :
  to_Q (fst (pid (Pid_new (Int 1) (Int 0) (Int 0) (Int 10)) (Float 10))) == 0.
Proof. reflexivity. Qed.

(** On finite numbers [Ext.pid] is [pid]. *)
Lemma ext_pid_lift (self : Pid) (feedback : num) :
  Ext.pid (lift self) (Ext.Fin feedback)
  = (Ext.Fin (fst (pid self feedback)), lift (snd (pid self feedback))).
Proof.
  unfold Ext.pid, pid, lift.
  cbn [Ext.target Ext.last_error Ext.accumulate_error_min Ext.accumulate_error_max
       Ext.accumulate_error Ext.partial Ext.integral Ext.derivative
       Ext.sub Ext.add Ext.mul Ext.ltb fst snd
       target last_error accumulate_error_min accumulate_error_max
       accumulate_error output partial integral derivative p_err i_err d_err].
  destruct (_ <? accumulate_error_min self)%num;
    unfold Ext.gtb, Py.gtb; cbn [Ext.ltb];
    match goal with
    | |- context [Py.ltb (accumulate_error_max self) ?x] =>
        destruct (Py.ltb (accumulate_error_max self) x)
    end; reflexivity.
Qed.

(** One call with a finite feedback keeps [Ext.bounded], the bounds and
    the target. *)
Lemma ext_pid_bounded (self : Ext.Pid) (feedback : Ext.xnum) :
  Ext.bounded self ->
  Ext.is_finite feedback = true ->
  Ext.bounded (snd (Ext.pid self feedback)) /\
  Ext.accumulate_error_max (snd (Ext.pid self feedback))
  = Ext.accumulate_error_max self.
Proof.
  intros ([Hlo Hhi] & Ht & Hmin & Hmax) Hf.
  destruct self as [t le lo hi a o p i d pe ie de].
  cbn [Ext.target Ext.accumulate_error_min Ext.accumulate_error_max
       Ext.accumulate_error] in *.
  destruct t as [t|]; [|discriminate Ht].
  destruct lo as [lo|]; [|discriminate Hmin].
  destruct hi as [hi|]; [|discriminate Hmax].
  destruct feedback as [f|]; [|discriminate Hf].
  destruct a as [a|s]; [|destruct s; discriminate].
  cbn [Ext.leb] in Hlo, Hhi.
  pose proof (leb_trans _ _ _ Hlo Hhi) as Hlh.
  destruct (clamp_in_range lo hi (a + (t - f))%num Hlh) as [C1 C2].
  split; [|reflexivity].
  unfold Ext.bounded, Ext.integral_in_range, Ext.pid.
  cbn [snd Ext.target Ext.accumulate_error_min Ext.accumulate_error_max
       Ext.accumulate_error Ext.sub Ext.add Ext.ltb Ext.is_finite].
  unfold clamp, Py.min, Py.max, Py.gtb in C1, C2.
  destruct (_ <? lo)%num;
    unfold Ext.gtb; cbn [Ext.ltb];
    match goal with
    | |- context [Py.ltb hi ?x] => destruct (Py.ltb hi x)
    end; cbn [Ext.leb]; repeat split; assumption.
Qed.






(** C6.  [set_target] and [set_pidt] write the target and the gains only:
    the accumulator, [last_error] and every other field keep their value.
    [set_pidt] with a tuple of another length fails its assertion before
    any assignment. *)
Theorem set_target_set_pidt_frame (self : Pid) (p i d t : num) :
  (let self' := set_target self t in
   target self' = t /\
   partial self' = partial self /\
   integral self' = integral self /\
   derivative self' = derivative self /\
   accumulate_error self' = accumulate_error self /\
   last_error self' = last_error self /\
   accumulate_error_min self' = accumulate_error_min self /\
   accumulate_error_max self' = accumulate_error_max self /\
   output self' = output self /\
   p_err self' = p_err self /\ i_err self' = i_err self /\ d_err self' = d_err self) /\
  (exists self',
      set_pidt self [p; i; d; t] = Ok self' /\
      partial self' = p /\ integral self' = i /\ derivative self' = d /\
      target self' = t /\
      accumulate_error self' = accumulate_error self /\
      last_error self' = last_error self /\
      accumulate_error_min self' = accumulate_error_min self /\
      accumulate_error_max self' = accumulate_error_max self /\
      output self' = output self /\
      p_err self' = p_err self /\ i_err self' = i_err self /\ d_err self' = d_err self) /\
  (forall pidt,
      match set_pidt self pidt with
      | Ok self' =>
          List.length pidt = 4%nat /\
          accumulate_error self' = accumulate_error self /\
          last_error self' = last_error self
      | Raise e =>
          List.length pidt <> 4%nat /\
          e = AssertionError "p, i, d, t value invalid"
      end).
Proof.
  split; [|split].
  - cbv zeta. repeat split.
  - eexists. split; [reflexivity|]. repeat split.
  - intros pidt.
    destruct pidt as [|a [|b [|c [|e [|g r]]]]]; cbn;
      repeat split; try discriminate; try reflexivity.
Qed.

(** Changing gains and target after a call that left a residue keeps the
    residue. *)
Example set_pidt_keeps_windup :
  let self := snd (pid (Pid_new (Float 150000) (Float 7000) (Float 0) (Float 1))
                       (Float 0.5)) in
  match set_pidt self [Float 1; Float 2; Float 3; Float 4] with
  | Ok self' =>
      to_Q (accumulate_error self') == 0.5 /\ to_Q (last_error self') == 0.5
  | Raise _ => False
  end.
Proof. cbn. split; reflexivity. Qed.

(** ** Claims about the host loop *)

Lemma duty_limits (x : num) :
  let y := Py.max (Int 0) (Py.min (Int 65535) x) in
  (Int 0 <=? y)%num = true /\ (y <=? Int 65535)%num = true.
Proof.
  cbv zeta. unfold Py.max, Py.min, Py.gtb.
  destruct (Py.ltb x (Int 65535)) eqn:E1.
  - destruct (Py.ltb (Int 0) x) eqn:E2.
    + split; apply leb_le.
      * apply Qlt_le_weak, ltb_lt, E2.
      * apply Qlt_le_weak, ltb_lt, E1.
    + split; [apply leb_refl | reflexivity].
  - change (Py.ltb (Int 0) (Int 65535)) with true. cbv iota.
    split; [reflexivity | apply leb_refl].
Qed.

(** C1, as the code has it.  A tick with closed-loop control on calls the
    controller with the power just read, adds its output to the stored
    duty, limits the sum to [[0, 65535]] and writes the line
    [{freq, duty}] to the serial port.  The stored duty is not written: it
    is the same after the tick, so the next tick starts again from it and
    not from the duty just sent. *)
Theorem control_tick_closed_loop (float_repr : Q -> string) (pwm_freq : Z)
    (power_value current_time : num) (st : session) :
  closed_loop_running st = true ->
  let st' := control_tick float_repr pwm_freq power_value current_time st in
  let duty := tick_duty power_value st in
  duty = Py.max (Int 0)
           (Py.min (Int 65535)
              (current_pwm_duty st + fst (pid (pid_controller st) power_value))%num) /\
  (Int 0 <=? duty)%num = true /\
  (duty <=? Int 65535)%num = true /\
  micro_controller st' =
    (micro_controller st
     ++ [(json_dumps float_repr
            (PyDict [("freq", PyNum (Int pwm_freq)); ("duty", PyNum duty)])
          ++ newline)%string])%list /\
  pid_controller st' = snd (pid (pid_controller st) power_value) /\
  current_pwm_duty st' = current_pwm_duty st /\
  closed_loop_running st' = true /\
  (forall power_value',
      tick_duty power_value' st' =
      Py.max (Int 0)
        (Py.min (Int 65535)
           (current_pwm_duty st
            + fst (pid (snd (pid (pid_controller st) power_value)) power_value'))%num)).
Proof.
  intros Hon. cbv zeta. unfold control_tick, tick_duty. rewrite Hon.
  destruct (pid (pid_controller st) power_value) as [out pid'] eqn:Epid.
  cbn [fst snd micro_controller pid_controller current_pwm_duty closed_loop_running].
  split; [reflexivity|].
  split; [apply duty_limits|].
  split; [apply duty_limits|].
  split; [reflexivity|].
  split; [reflexivity|].
  split; [reflexivity|].
  split; reflexivity.
Qed.

Lemma control_tick_closed_loop_witness :
  let st' := control_tick repr_decimal 10000 (Float 0.9375) (Float 0) session_example in
  micro_controller st' = [command_line "10000" "9812.5"] /\
  current_pwm_duty st' = Int 0.
Proof.
  pose proof (control_tick_closed_loop repr_decimal 10000 (Float 0.9375) (Float 0)
                session_example eq_refl) as H.
  cbv zeta in H.
  destruct H as (_ & _ & _ & Hline & _ & Hduty & _).
  split; [rewrite Hline; reflexivity | exact Hduty].
Defined.

(** C1 as stated fails.  With target 1 W, 0.9375 W read and the stored duty
    at 0, the tick sends duty 9812.5 and leaves the stored duty at 0; the
    next tick, at the same reading, sends 0 + 10250 and not
    9812.5 + 10250. *)
Lemma control_tick_duty_not_stored :
  let st := session_example in
  let st' := control_tick repr_decimal 10000 (Float 0.9375) (Float 0) st in
  let st'' := control_tick repr_decimal 10000 (Float 0.9375) (Float 1) st' in
  closed_loop_running st = true /\
  to_Q (tick_duty (Float 0.9375) st) == 9812.5 /\
  micro_controller st' = [command_line "10000" "9812.5"] /\
  ~ to_Q (current_pwm_duty st') == to_Q (tick_duty (Float 0.9375) st) /\
  micro_controller st''
  = [command_line "10000" "9812.5"; command_line "10000" "10250.0"].
Proof.
  cbv zeta. split; [reflexivity|]. split; [reflexivity|].
  split; [reflexivity|]. split; [|reflexivity].
  intros H. discriminate H.
Qed.

(** The open-loop button is what writes the stored duty: it keeps the duty
    it has just sent. *)
Example open_loop_set_stores_duty :
  let st := open_loop_set repr_decimal 10000 50 session_init in
  micro_controller st = [command_line "10000" "32767"] /\
  current_pwm_duty st = Int 32767.
Proof. split; reflexivity. Qed.

(** ** Claims about the command protocol *)

(** C7.  For ints [f] in [[1000, 1000000]] and [d] in [[0, 65535]], the
    line [set_pwm] writes for them is decoded by the device to exactly
    [(f, d)]. *)
Theorem set_pwm_decode_roundtrip (float_repr : Q -> string) (f d : Z)
    (port : serial) :
  1000 <= f <= 1000000 -> 0 <= d <= 65535 ->
  exists line,
    set_pwm float_repr (Int f) (Int d) port = (port ++ [line])%list /\
    decode line = Ok (f, d).
Proof.
  intros Hf Hd. exists (command_text f d ++ newline)%string. split.
  - unfold set_pwm. now rewrite json_dumps_command.
  - apply decode_command; assumption.
Qed.

Lemma set_pwm_decode_roundtrip_witness :
  exists line,
    set_pwm repr_decimal (Int 10000) (Int 32768) [] = [line] /\
    decode line = Ok (10000, 32768).
Proof.
  apply (set_pwm_decode_roundtrip repr_decimal 10000 32768 []); lia.
Defined.

(** The same line, seen by the main loop: the status is published and the
    PWM is set to the values sent. *)
Example main_loop_on_sent_line :
  trace (main_loop 0 (PollLine (command_line "10000" "32768")) device_init)
  = (trace device_init
     ++ [Publish {| rendered := false; title := "PWM 0";
                    message := ("FREQ: 10000" ++ newline ++ "DUTY: 50.00%")%string;
                    time := 10 |};
         SetFreq 10000; SetDutyU16 32768])%list.
Proof. reflexivity. Qed.

(** ** The device: traces *)

Lemma new_events_app (st : device) (m : MCmd) (l : list event) :
  new_events st {| monitor_cmd := m; trace := trace st ++ l |} = l.
Proof.
  unfold new_events. cbn [trace].
  induction (trace st) as [|e tr IH]; [reflexivity | exact IH].
Qed.

Lemma count_app (f : event -> bool) (l1 l2 : list event) :
  count f (l1 ++ l2) = (count f l1 + count f l2)%nat.
Proof. unfold count. now rewrite filter_app, length_app. Qed.

Lemma main_loop_success (now : Z) (line : string) (st : device) (freq duty : Z) :
  decode line = Ok (freq, duty) ->
  main_loop now (PollLine line) st =
  {| monitor_cmd := success_status now freq duty;
     trace := trace st ++ [Publish (success_status now freq duty);
                           SetFreq freq; SetDutyU16 duty] |}.
Proof.
  intros H. unfold main_loop. rewrite H.
  unfold emit, publish, success_status. cbn [trace monitor_cmd].
  now rewrite <- !app_assoc.
Qed.

Lemma main_loop_failure (now : Z) (line : string) (st : device) (e : exn) :
  decode line = Raise e ->
  main_loop now (PollLine line) st =
  {| monitor_cmd := error_status e; trace := trace st ++ [Publish (error_status e)] |}.
Proof. intros H. unfold main_loop. now rewrite H. Qed.

(** Every pass of the main loop overwrites the slot with a status not yet
    shown; besides that it only touches the PWM. *)
Lemma main_loop_publishes (now : Z) (p : poll_result) (st : device) :
  exists m rest,
    main_loop now p st
    = {| monitor_cmd := m; trace := trace st ++ Publish m :: rest |} /\
    rendered m = false /\
    count is_draw rest = 0%nat /\ count is_publish rest = 0%nat.
Proof.
  destruct p as [e| |line].
  - eexists. exists []. repeat split.
  - eexists. exists []. repeat split.
  - destruct (decode line) as [[freq duty]|e] eqn:E.
    + exists (success_status now freq duty), [SetFreq freq; SetDutyU16 duty].
      rewrite (main_loop_success _ _ _ _ _ E). repeat split.
    + exists (error_status e), [].
      rewrite (main_loop_failure _ _ _ _ E). repeat split.
Qed.

(** ** Claims about the command loop *)

(** C2, as the code has it.  For a line that decodes to [(freq, duty)] the
    main loop first publishes the success status (title [PWM] and the
    clock, body with the frequency and the duty as a percentage with two
    decimals, hold time 10 ms), then sets the frequency, then the duty:
    the frequency is set before the duty, and the report comes before the
    actuation. *)
Theorem main_loop_success_order (now : Z) (line : string) (st : device)
    (freq duty : Z) :
  decode line = Ok (freq, duty) ->
  let st' := main_loop now (PollLine line) st in
  new_events st st'
  = [Publish (success_status now freq duty); SetFreq freq; SetDutyU16 duty] /\
  monitor_cmd st' = success_status now freq duty /\
  rendered (success_status now freq duty) = false /\
  title (success_status now freq duty) = ("PWM " ++ str_int now)%string /\
  message (success_status now freq duty)
  = ("FREQ: " ++ str_int freq ++ newline ++ "DUTY: "
     ++ format_2f (truediv (Int duty * Int 100)%num (Int 65535)) ++ "%")%string /\
  time (success_status now freq duty) = 10.
Proof.
  intros H. cbv zeta. rewrite (main_loop_success _ _ _ _ _ H).
  rewrite new_events_app. repeat split.
Qed.

Lemma main_loop_success_order_witness :
  new_events device_init
    (main_loop 1733212548 (PollLine (command_line "10000" "32768")) device_init)
  = [Publish {| rendered := false; title := "PWM 1733212548";
                message := ("FREQ: 10000" ++ newline ++ "DUTY: 50.00%")%string;
                time := 10 |};
     SetFreq 10000; SetDutyU16 32768].
Proof.
  exact (proj1 (main_loop_success_order 1733212548
                  (command_line "10000" "32768") device_init 10000 32768 eq_refl)).
Defined.

(** C2 as stated fails: on the line [{"freq": 10000, "duty": 32768}] the
    status is published before the PWM is touched, not after. *)
Lemma main_loop_reports_before_actuating :
  let line := command_line "10000" "32768" in
  let st' := main_loop 0 (PollLine line) device_init in
  decode line = Ok (10000, 32768) /\
  new_events device_init st'
  = [Publish (success_status 0 10000 32768); SetFreq 10000; SetDutyU16 32768] /\
  new_events device_init st'
  <> [SetFreq 10000; SetDutyU16 32768; Publish (success_status 0 10000 32768)].
Proof.
  cbv zeta. split; [reflexivity|]. split; [reflexivity|].
  intros H. discriminate H.
Qed.

Lemma dict_get_some_nonempty (k : string) (d : list (string * value)) (v : value) :
  dict_get k d = Some v -> truthy (PyDict d) = true.
Proof. destruct d; [discriminate | reflexivity]. Qed.

(** Decoding a record that has both keys: the two values go through
    [int()], then through the range test. *)
Lemma decode_record (line : string) (d : list (string * value)) (vf vd : value) :
  load_cmd (strip line) = Ok (PyDict d) ->
  dict_get "freq" d = Some vf ->
  dict_get "duty" d = Some vd ->
  decode line =
  (freq <- py_int vf ;;
   duty <- py_int vd ;;
   if in_range freq duty then Ok (freq, duty)
   else Raise (ValueError "invalid freq or duty")).
Proof.
  intros Hcmd Hf Hd. unfold decode. rewrite Hcmd. cbn [bind].
  rewrite (dict_get_some_nonempty _ _ _ Hf). cbn [negb].
  unfold py_in, py_getitem. rewrite Hf, Hd. cbn [bind negb orb].
  destruct (py_int vf) as [freq|e]; [|reflexivity]. cbn [bind].
  destruct (py_int vd) as [duty|e]; [|reflexivity]. cbn [bind].
  unfold in_range.
  match goal with
  | |- (if ?b then _ else _) = _ => destruct b; reflexivity
  end.
Qed.

(** C3, as the code has it.  When the record holds finite numbers under
    both keys, integral or not, decoding never fails on their type:
    [int()] truncates each toward zero, and the truncated values go to the
    range test and, when they pass it, to the PWM.  A float that is not
    finite is refused by [int()], with [OverflowError] for an infinity and
    [ValueError] for [nan], under [freq] first and else under [duty]. *)
Theorem decode_truncates_numbers (line : string) (d : list (string * value)) :
  load_cmd (strip line) = Ok (PyDict d) ->
  (forall x y : num,
     dict_get "freq" d = Some (PyNum x) ->
     dict_get "duty" d = Some (PyNum y) ->
     decode line =
     if in_range (Py.trunc x) (Py.trunc y) then Ok (Py.trunc x, Py.trunc y)
     else Raise (ValueError "invalid freq or duty")) /\
  (forall (s : special) (vd : value),
     dict_get "freq" d = Some (PyNonFinite s) ->
     dict_get "duty" d = Some vd ->
     decode line =
     Raise (match s with
            | NaN => ValueError msg_int_nan
            | _ => OverflowError msg_int_inf
            end)) /\
  (forall (x : num) (s : special),
     dict_get "freq" d = Some (PyNum x) ->
     dict_get "duty" d = Some (PyNonFinite s) ->
     decode line =
     Raise (match s with
            | NaN => ValueError msg_int_nan
            | _ => OverflowError msg_int_inf
            end)).
Proof.
  intros Hcmd. split; [|split].
  - intros x y Hf Hd. now rewrite (decode_record _ _ _ _ Hcmd Hf Hd).
  - intros s vd Hf Hd. rewrite (decode_record _ _ _ _ Hcmd Hf Hd).
    destruct s; reflexivity.
  - intros x s Hf Hd. rewrite (decode_record _ _ _ _ Hcmd Hf Hd).
    destruct s; reflexivity.
Qed.

Lemma decode_truncates_numbers_witness :
  decode (command_line "1000.5" "1.5") = Ok (1000, 1) /\
  decode (command_line "1e400" "1") = Raise (OverflowError msg_int_inf).
Proof.
  split.
  - refine (proj1 (decode_truncates_numbers (command_line "1000.5" "1.5")
                     [("freq", PyNum (Float 1000.5)); ("duty", PyNum (Float 1.5))]
                     _)
                  (Float 1000.5) (Float 1.5) eq_refl eq_refl).
    vm_compute. reflexivity.
  - refine (proj1 (proj2 (decode_truncates_numbers (command_line "1e400" "1")
                            [("freq", PyNonFinite PosInf); ("duty", PyNum (Int 1))]
                            _))
                  PosInf (PyNum (Int 1)) eq_refl eq_refl).
    vm_compute. reflexivity.
Defined.

(** C3 as stated fails: the line [{"freq": 1000.5, "duty": 1.5}] holds two
    non-integral numbers, yet it is decoded (to 1000 and 1) and the PWM is
    set. *)
Lemma non_integral_is_accepted :
  let line := command_line "1000.5" "1.5" in
  load_cmd (strip line)
  = Ok (PyDict [("freq", PyNum (Float 1000.5)); ("duty", PyNum (Float 1.5))]) /\
  decode line = Ok (1000, 1) /\
  (forall m, decode line <> Raise (TypeError m)) /\
  new_events device_init (main_loop 0 (PollLine line) device_init)
  = [Publish (success_status 0 1000 1); SetFreq 1000; SetDutyU16 1].
Proof.
  cbv zeta. split; [reflexivity|]. split; [reflexivity|].
  split; [|reflexivity].
  intros m H. discriminate H.
Qed.

(** C8, as the code has it.  The range test sees the values after
    [int()].  When the record holds under [freq] and [duty] values that
    [int()] turns into [f] and [d], and [f] is outside [[1000, 1000000]]
    or [d] outside [[0, 65535]], decoding fails with the range error, the
    main loop publishes the status [C Error] with hold time 1000 ms and
    nothing else: the PWM is not touched. *)
Theorem out_of_range_rejected (now : Z) (line : string) (st : device)
    (rec : list (string * value)) (vf vd : value) (f d : Z) :
  load_cmd (strip line) = Ok (PyDict rec) ->
  dict_get "freq" rec = Some vf ->
  dict_get "duty" rec = Some vd ->
  py_int vf = Ok f ->
  py_int vd = Ok d ->
  f < 1000 \/ 1000000 < f \/ d < 0 \/ 65535 < d ->
  let st' := main_loop now (PollLine line) st in
  decode line = Raise (ValueError "invalid freq or duty") /\
  new_events st st'
  = [Publish {| rendered := false; title := "C Error";
                message := "invalid freq or duty"; time := 1000 |}] /\
  monitor_cmd st'
  = {| rendered := false; title := "C Error";
       message := "invalid freq or duty"; time := 1000 |} /\
  count is_pwm (trace st') = count is_pwm (trace st).
Proof.
  intros Hcmd Hf Hd Hif Hid Hout. cbv zeta.
  assert (E : decode line = Raise (ValueError "invalid freq or duty")).
  { rewrite (decode_record _ _ _ _ Hcmd Hf Hd), Hif, Hid. cbn [bind].
    replace (in_range f d) with false; [reflexivity|].
    symmetry. unfold in_range. apply negb_false_iff.
    rewrite !orb_true_iff, !Z.gtb_ltb, !Z.ltb_lt. tauto. }
  rewrite (main_loop_failure _ _ _ _ E).
  split; [exact E|]. split; [apply new_events_app|]. split; [reflexivity|].
  cbn [trace]. rewrite count_app. cbn. lia.
Qed.

Lemma out_of_range_rejected_witness :
  let line := command_line "500" "100" in
  let st' := main_loop 0 (PollLine line) device_init in
  decode line = Raise (ValueError "invalid freq or duty") /\
  new_events device_init st'
  = [Publish {| rendered := false; title := "C Error";
                message := "invalid freq or duty"; time := 1000 |}] /\
  monitor_cmd st'
  = {| rendered := false; title := "C Error";
       message := "invalid freq or duty"; time := 1000 |} /\
  count is_pwm (trace st') = count is_pwm (trace device_init).
Proof.
  apply (out_of_range_rejected 0 (command_line "500" "100") device_init
           [("freq", PyNum (Int 500)); ("duty", PyNum (Int 100))]
           (PyNum (Int 500)) (PyNum (Int 100)) 500 100);
    try reflexivity.
  left. lia.
Defined.

(** C8 as stated fails: in the line [{"freq": 1000000.5, "duty": -0.5}]
    the frequency is above 1000000 and the duty below 0, yet [int()] cuts
    both into the ranges, the line is decoded (to 1000000 and 0) and the
    PWM is set. *)
Lemma fraction_outside_range_accepted :
  let line := command_line "1000000.5" "-0.5" in
  load_cmd (strip line)
  = Ok (PyDict [("freq", PyNum (Float 1000000.5)); ("duty", PyNum (Float (-0.5)))]) /\
  (1000000 < to_Q (Float 1000000.5))%Q /\
  (to_Q (Float (-0.5)) < 0)%Q /\
  decode line = Ok (1000000, 0) /\
  new_events device_init (main_loop 0 (PollLine line) device_init)
  = [Publish (success_status 0 1000000 0); SetFreq 1000000; SetDutyU16 0].
Proof.
  cbv zeta. split; [vm_compute; reflexivity|].
  split; [reflexivity|]. split; [reflexivity|].
  split; vm_compute; reflexivity.
Qed.

(** The values whose truth value is false. *)
Lemma falsy_values (v : value) :
  truthy v = false <->
  v = PyNone \/ v = PyBool false \/ (exists n, v = PyNum n /\ Py.nonzero n = false)
  \/ v = PyStr "" \/ v = PyList [] \/ v = PyDict [].
Proof.
  split.
  - destruct v as [|b|n|s|l|d|x]; cbn [truthy]; intros H.
    + now left.
    + subst b. right. now left.
    + right. right. left. now exists n.
    + destruct s; [|discriminate H]. right. right. right. now left.
    + destruct l; [|discriminate H]. do 4 right. now left.
    + destruct d; [|discriminate H]. do 5 right. reflexivity.
    + discriminate H.
  - intros [->|[->|[(n & -> & Hn)|[->|[->| ->]]]]]; try reflexivity. exact Hn.
Qed.

(** C10.  A line whose JSON value is false as a truth value (the empty
    object, the empty array, zero, null, false, the empty string) is
    rejected with [ValueError "invalid cmd"] before the test for the two
    keys, and reported as [C Error]; so is the empty object, which has
    neither key. *)
Theorem falsy_command_is_invalid (now : Z) (line : string) (st : device)
    (v : value) :
  json_loads (strip line) = Some v ->
  truthy v = false ->
  decode line = Raise (ValueError "invalid cmd") /\
  (forall m, decode line <> Raise (KeyError m)) /\
  new_events st (main_loop now (PollLine line) st)
  = [Publish {| rendered := false; title := "C Error";
                message := "invalid cmd"; time := 1000 |}].
Proof.
  intros Hv Hfalse.
  assert (E : decode line = Raise (ValueError "invalid cmd")).
  { unfold decode, load_cmd. rewrite Hv. cbn [bind]. rewrite Hfalse. reflexivity. }
  split; [exact E|]. split.
  - intros m H. rewrite E in H. discriminate H.
  - rewrite (main_loop_failure _ _ _ _ E). apply new_events_app.
Qed.

Lemma falsy_command_is_invalid_witness :
  decode ("{}" ++ newline) = Raise (ValueError "invalid cmd") /\
  (forall m, decode ("{}" ++ newline) <> Raise (KeyError m)) /\
  new_events device_init (main_loop 0 (PollLine ("{}" ++ newline)) device_init)
  = [Publish {| rendered := false; title := "C Error";
                message := "invalid cmd"; time := 1000 |}].
Proof.
  apply (falsy_command_is_invalid 0 ("{}" ++ newline) device_init (PyDict []));
    reflexivity.
Defined.

(** The six texts of the claim, each on a line of its own. *)
Example falsy_lines :
  decode ("{}" ++ newline) = Raise (ValueError "invalid cmd") /\
  decode ("[]" ++ newline) = Raise (ValueError "invalid cmd") /\
  decode ("0" ++ newline) = Raise (ValueError "invalid cmd") /\
  decode ("null" ++ newline) = Raise (ValueError "invalid cmd") /\
  decode ("false" ++ newline) = Raise (ValueError "invalid cmd") /\
  decode (quoted "" ++ newline) = Raise (ValueError "invalid cmd").
Proof. repeat split. Qed.

(** ** Claims about the mailbox *)

Section Mailbox.

Local Open Scope list_scope.

Lemma monitor_shown (draw : option exn) (time_interval : Z) (st : device) :
  rendered (monitor_cmd st) = true ->
  monitor draw time_interval st
  = {| monitor_cmd := monitor_cmd st;
       trace := trace st ++ [SleepMs time_interval] |}.
Proof. intros H. unfold monitor. rewrite H. reflexivity. Qed.

Lemma monitor_draws (time_interval : Z) (st : device) :
  rendered (monitor_cmd st) = false ->
  monitor None time_interval st
  = {| monitor_cmd := mkMCmd true (title (monitor_cmd st)) (message (monitor_cmd st))
                             (time (monitor_cmd st));
       trace := trace st ++ [Draw (title (monitor_cmd st)) (message (monitor_cmd st));
                             SleepMs (time (monitor_cmd st) + 1);
                             SleepMs time_interval] |}.
Proof.
  intros H. unfold monitor. rewrite H. unfold emit. cbn [negb trace monitor_cmd].
  now rewrite <- !app_assoc.
Qed.

Lemma monitor_fails (e : exn) (time_interval : Z) (st : device) :
  rendered (monitor_cmd st) = false ->
  monitor (Some e) time_interval st
  = {| monitor_cmd := mkMCmd false "M Error" (str_exn e) 1000;
       trace := trace st ++ [Publish (mkMCmd false "M Error" (str_exn e) 1000);
                             SleepMs 1000] |}.
Proof.
  intros H. unfold monitor. rewrite H. unfold emit, publish.
  cbn [negb trace monitor_cmd]. now rewrite <- !app_assoc.
Qed.

(** One step never shows more than was waiting or has been published
    since. *)
Lemma step_budget (a : action) (st : device) :
  (count is_draw (trace (step a st)) + pending (step a st)
   + count is_publish (trace st)
   <= count is_draw (trace st) + pending st
      + count is_publish (trace (step a st)))%nat.
Proof.
  destruct a as [now p|draw ti]; cbn [step].
  - destruct (main_loop_publishes now p st) as (m & rest & -> & Hm & Hd & Hp).
    unfold pending at 1. cbn [trace monitor_cmd]. rewrite Hm.
    rewrite !count_app.
    change (Publish m :: rest) with ([Publish m] ++ rest).
    rewrite !count_app, Hd, Hp. cbn. destruct (pending st); lia.
  - destruct (rendered (monitor_cmd st)) eqn:E.
    + rewrite (monitor_shown _ _ _ E). unfold pending. cbn [trace monitor_cmd].
      rewrite E, !count_app. cbn. lia.
    + destruct draw as [e|].
      * rewrite (monitor_fails _ _ _ E). unfold pending. cbn [trace monitor_cmd rendered].
        rewrite E, !count_app. cbn. lia.
      * rewrite (monitor_draws _ _ E). unfold pending. cbn [trace monitor_cmd rendered].
        rewrite E, !count_app. cbn. lia.
Qed.

Lemma run_budget (acts : list action) :
  forall st,
    (count is_draw (trace (run acts st)) + pending (run acts st)
     + count is_publish (trace st)
     <= count is_draw (trace st) + pending st
        + count is_publish (trace (run acts st)))%nat.
Proof.
  induction acts as [|a acts IH]; intros st.
  - cbn. lia.
  - change (run (a :: acts) st) with (run acts (step a st)).
    pose proof (IH (step a st)). pose proof (step_budget a st). lia.
Qed.

(** C9.  The slot [monitor_cmd] holds one status.  After two passes of the
    main loop with no pass of the monitor in between, the slot holds the
    status of the second pass (the first is gone), and the monitor shows
    that one.  A pass of the monitor right after one that showed or found
    nothing new draws nothing.  In any run, the number of statuses drawn is
    at most the number published in the run plus the one that was waiting
    at its start: no status is drawn twice. *)
Theorem mailbox_single_slot :
  (forall now1 p1 now2 p2 time_interval st,
      let stA := main_loop now1 p1 st in
      let stB := main_loop now2 p2 stA in
      exists mA mB restA restB,
        trace stA = (trace st ++ Publish mA :: restA)%list /\
        trace stB = (trace stA ++ Publish mB :: restB)%list /\
        count is_draw restA = 0%nat /\ count is_draw restB = 0%nat /\
        monitor_cmd stB = mB /\ rendered mB = false /\
        new_events stB (monitor None time_interval stB)
        = [Draw (title mB) (message mB); SleepMs (time mB + 1);
           SleepMs time_interval] /\
        rendered (monitor_cmd (monitor None time_interval stB)) = true) /\
  (forall draw time_interval time_interval' st,
      let st1 := monitor None time_interval st in
      rendered (monitor_cmd st1) = true /\
      new_events st1 (monitor draw time_interval' st1) = [SleepMs time_interval']) /\
  (forall acts st,
      (count is_draw (trace (run acts st)) + pending (run acts st)
       + count is_publish (trace st)
       <= count is_draw (trace st) + pending st
          + count is_publish (trace (run acts st)))%nat).
Proof.
  split; [|split].
  - intros now1 p1 now2 p2 ti st. cbv zeta.
    destruct (main_loop_publishes now1 p1 st) as (mA & restA & EA & _ & HdA & _).
    rewrite EA.
    destruct (main_loop_publishes now2 p2
                {| monitor_cmd := mA; trace := trace st ++ Publish mA :: restA |})
      as (mB & restB & EB & HmB & HdB & _).
    rewrite EB. cbn [trace monitor_cmd].
    exists mA, mB, restA, restB.
    repeat split; try assumption.
    + rewrite monitor_draws by exact HmB. cbn [monitor_cmd trace].
      apply (new_events_app
               {| monitor_cmd := mB;
                  trace := (trace st ++ Publish mA :: restA) ++ Publish mB :: restB |}).
    + rewrite monitor_draws by exact HmB. reflexivity.
  - intros draw ti ti' st. cbv zeta.
    assert (H : rendered (monitor_cmd (monitor None ti st)) = true).
    { destruct (rendered (monitor_cmd st)) eqn:E.
      - rewrite (monitor_shown _ _ _ E). exact E.
      - rewrite (monitor_draws _ _ E). reflexivity. }
    split; [exact H|].
    rewrite (monitor_shown draw ti' _ H). apply new_events_app.
  - intros acts st. apply run_budget.
Qed.

(** Two commands in a row, then the monitor: only the second status is
    drawn, and a second pass of the monitor draws nothing. *)
Example second_status_wins :
  let st := run [MainPass 1 (PollLine (command_line "10000" "100"));
                 MainPass 2 PollTimeout;
                 MonitorPass None 20;
                 MonitorPass None 20] device_init in
  filter is_draw (trace st) = [Draw "no cmd 2" "waiting for cmd..."].
Proof. reflexivity. Qed.

End Mailbox.

(** * Further properties of the device program *)

Section DeviceMore.

Local Open Scope list_scope.

(** What an accepted line was: a record with both keys, whose values
    [int()] turned into the pair returned, inside the ranges. *)
Lemma decode_ok_inv (line : string) (f d : Z) :
  decode line = Ok (f, d) ->
  exists rec vf vd,
    load_cmd (strip line) = Ok (PyDict rec) /\
    dict_get "freq" rec = Some vf /\ dict_get "duty" rec = Some vd /\
    py_int vf = Ok f /\ py_int vd = Ok d /\
    (1000 <= f <= 1000000)%Z /\ (0 <= d <= 65535)%Z.
Proof.
  - unfold decode. intros H.
    destruct (load_cmd (strip line)) as [cmd|e] eqn:Ecmd; [|discriminate H].
    cbn [bind] in H.
    destruct (truthy cmd) eqn:Et; [|discriminate H].
    cbn [negb] in H.
    destruct cmd as [|b|n|s|l|rec|x]; try discriminate H.
    + (* a string: the subscript fails *)
      cbn [py_in bind] in H.
      destruct (String.index 0 "freq" s); cbn [bind negb orb] in H;
        [|discriminate H].
      destruct (String.index 0 "duty" s); cbn [bind negb orb] in H;
        discriminate H.
    + (* a list: the subscript fails *)
      cbn [py_in bind] in H.
      destruct (existsb (value_is_str "freq") l); cbn [bind negb orb] in H;
        [|discriminate H].
      destruct (existsb (value_is_str "duty") l); cbn [bind negb orb] in H;
        discriminate H.
    + cbn [py_in py_getitem bind] in H.
      destruct (dict_get "freq" rec) as [vf|] eqn:Ef; cbn [bind negb orb] in H;
        [|discriminate H].
      destruct (dict_get "duty" rec) as [vd|] eqn:Ed; cbn [bind negb orb] in H;
        [|discriminate H].
      destruct (py_int vf) as [f'|e] eqn:Eif; cbn [bind] in H; [|discriminate H].
      destruct (py_int vd) as [d'|e] eqn:Eid; cbn [bind] in H; [|discriminate H].
      match type of H with
      | (if ?b then _ else _) = _ => destruct b eqn:Eb; [discriminate H|]
      end.
      injection H as <- <-.
      exists rec, vf, vd. repeat split; try assumption;
        rewrite !orb_false_iff, !Z.gtb_ltb, !Z.ltb_ge in Eb; lia.
Qed.

Lemma in_range_true (f d : Z) :
  (1000 <= f <= 1000000)%Z -> (0 <= d <= 65535)%Z -> in_range f d = true.
Proof.
  intros Rf Rd. unfold in_range. apply negb_true_iff.
  rewrite !orb_false_iff, !Z.gtb_ltb, !Z.ltb_ge. lia.
Qed.

(** A line is accepted exactly when it reads as a record holding under
    [freq] and [duty] values that [int()] turns into a pair inside the
    ranges; the pair returned is that pair. *)
Theorem decode_ok_iff (line : string) (f d : Z) :
  decode line = Ok (f, d) <->
  exists rec vf vd,
    load_cmd (strip line) = Ok (PyDict rec) /\
    dict_get "freq" rec = Some vf /\ dict_get "duty" rec = Some vd /\
    py_int vf = Ok f /\ py_int vd = Ok d /\
    (1000 <= f <= 1000000)%Z /\ (0 <= d <= 65535)%Z.
Proof.
  split.
  - apply decode_ok_inv.
  - intros (rec & vf & vd & Hcmd & Hf & Hd & Hif & Hid & Rf & Rd).
    rewrite (decode_record _ _ _ _ Hcmd Hf Hd), Hif, Hid. cbn [bind].
    rewrite (in_range_true f d Rf Rd). reflexivity.
Qed.

End DeviceMore.

Section DeviceErrors.

Local Open Scope list_scope.

(** A record that is not empty but lacks [freq] or [duty] is rejected with
    [KeyError "missing freq or duty"]; the main loop reports it as
    [C Error] with the text of that exception and leaves the PWM alone. *)
Theorem decode_missing_key (now : Z) (line : string) (st : device)
    (rec : list (string * value)) :
  load_cmd (strip line) = Ok (PyDict rec) ->
  rec <> [] ->
  dict_get "freq" rec = None \/ dict_get "duty" rec = None ->
  decode line = Raise (KeyError "missing freq or duty") /\
  new_events st (main_loop now (PollLine line) st)
  = [Publish {| rendered := false; title := "C Error";
                message := str_exn (KeyError "missing freq or duty");
                time := 1000 |}].
Proof.
  intros Hcmd Hne Hmiss.
  assert (E : decode line = Raise (KeyError "missing freq or duty")).
  { unfold decode. rewrite Hcmd.
    destruct rec as [|kv rec']; [contradiction Hne; reflexivity|].
    cbn [truthy negb py_in bind].
    destruct (dict_get "freq" (kv :: rec')) as [vf|]; [|reflexivity].
    destruct Hmiss as [Hf|Hd]; [discriminate Hf|].
    rewrite Hd. reflexivity. }
  split; [exact E|].
  rewrite (main_loop_failure _ _ _ _ E). apply new_events_app.
Qed.

Lemma decode_missing_key_witness :
  decode ("{" ++ quoted "freq" ++ ": 1000}" ++ newline)%string
  = Raise (KeyError "missing freq or duty") /\
  new_events device_init
    (main_loop 0 (PollLine ("{" ++ quoted "freq" ++ ": 1000}" ++ newline)%string)
               device_init)
  = [Publish {| rendered := false; title := "C Error";
                message := str_exn (KeyError "missing freq or duty");
                time := 1000 |}].
Proof.
  apply (decode_missing_key 0 _ device_init [("freq", PyNum (Int 1000))]).
  - reflexivity.
  - discriminate.
  - right. reflexivity.
Defined.



Lemma last_publish_none (l : list event) :
  count is_publish l = 0%nat -> last_publish l = None.
Proof.
  induction l as [|e l IH]; [reflexivity|].
  intros H. destruct e; cbn in H; try discriminate H;
    simpl; rewrite (IH H); reflexivity.
Qed.

Lemma last_publish_app (tr l : list event) :
  last_publish (tr ++ l)
  = match last_publish l with
    | Some m => Some m
    | None => last_publish tr
    end.
Proof.
  induction tr as [|e tr IH]; simpl.
  - destruct (last_publish l); reflexivity.
  - rewrite IH. destruct (last_publish l); reflexivity.
Qed.

Lemma last_publish_after (tr : list event) (m : MCmd) (l : list event) :
  count is_publish l = 0%nat ->
  last_publish (tr ++ Publish m :: l) = Some m.
Proof.
  intros H. rewrite last_publish_app. simpl.
  now rewrite (last_publish_none l H).
Qed.

(** Whatever [poll] gave, a pass of the main loop assigns [monitor_cmd]
    exactly once, with a status not yet shown, and draws nothing itself; it
    calls the PWM only for an accepted line, and then with the frequency
    first and the two decoded values. *)
Theorem main_loop_one_status (now : Z) (p : poll_result) (st : device) :
  let st' := main_loop now p st in
  count is_publish (new_events st st') = 1%nat /\
  count is_draw (new_events st st') = 0%nat /\
  rendered (monitor_cmd st') = false /\
  last_publish (trace st') = Some (monitor_cmd st') /\
  (filter is_pwm (new_events st st') = [] \/
   exists line f d,
     p = PollLine line /\ decode line = Ok (f, d) /\
     filter is_pwm (new_events st st') = [SetFreq f; SetDutyU16 d]).
Proof.
  cbv zeta.
  pose proof last_publish_after as Hlast.
  destruct p as [e| |line].
  - unfold main_loop, publish. rewrite new_events_app. cbn [trace monitor_cmd].
    rewrite (Hlast _ _ [] eq_refl). repeat split. now left.
  - unfold main_loop, publish. rewrite new_events_app. cbn [trace monitor_cmd].
    rewrite (Hlast _ _ [] eq_refl). repeat split. now left.
  - destruct (decode line) as [[f d]|e] eqn:E.
    + rewrite (main_loop_success _ _ _ _ _ E), new_events_app.
      cbn [trace monitor_cmd].
      rewrite (Hlast _ _ [SetFreq f; SetDutyU16 d] eq_refl).
      repeat split. right. exists line, f, d. repeat split. exact E.
    + rewrite (main_loop_failure _ _ _ _ E), new_events_app.
      cbn [trace monitor_cmd].
      rewrite (Hlast _ _ [] eq_refl). repeat split. now left.
Qed.

End DeviceErrors.

Section DeviceRuns.

Local Open Scope list_scope.

Lemma step_pwm_ok (a : action) (st : device) :
  exists l, trace (step a st) = trace st ++ l /\ forallb pwm_ok l = true.
Proof.
  destruct a as [now p|draw ti]; cbn [step].
  - destruct p as [e| |line].
    + eexists. split; reflexivity.
    + eexists. split; reflexivity.
    + destruct (decode line) as [[f d]|e] eqn:E.
      * rewrite (main_loop_success _ _ _ _ _ E). eexists. split; [reflexivity|].
        apply decode_ok_inv in E.
        destruct E as (_ & _ & _ & _ & _ & _ & _ & _ & Rf & Rd).
        cbn. rewrite !andb_true_r, !andb_true_iff, !Z.leb_le. lia.
      * rewrite (main_loop_failure _ _ _ _ E). eexists. split; reflexivity.
  - destruct (rendered (monitor_cmd st)) eqn:E.
    + rewrite (monitor_shown _ _ _ E). eexists. split; reflexivity.
    + destruct draw as [e|].
      * rewrite (monitor_fails _ _ _ E). eexists. split; reflexivity.
      * rewrite (monitor_draws _ _ E). eexists. split; reflexivity.
Qed.

(** In every run of the device, whatever lines arrive and whenever the
    monitor runs, each call of [laser_pwm.freq] has an argument in
    [[1000, 1000000]] and each call of [laser_pwm.duty_u16] one in
    [[0, 65535]], provided that held when the run started. *)
Theorem pwm_always_in_range (acts : list action) (st : device) :
  forallb pwm_ok (trace st) = true ->
  forallb pwm_ok (trace (run acts st)) = true.
Proof.
  revert st. induction acts as [|a acts IH]; intros st H; [exact H|].
  change (run (a :: acts) st) with (run acts (step a st)).
  apply IH. destruct (step_pwm_ok a st) as (l & -> & Hl).
  rewrite forallb_app, H, Hl. reflexivity.
Qed.

Lemma pwm_always_in_range_witness :
  forallb pwm_ok
    (trace (run [MainPass 1 (PollLine (command_line "10000" "65535"));
                 MonitorPass None 20;
                 MainPass 2 (PollLine (command_line "999" "1"));
                 MainPass 3 (PollLine (command_line "1000" "65536"));
                 MainPass 4 PollTimeout]
                device_init)) = true.
Proof.
  apply (pwm_always_in_range _ device_init). reflexivity.
Defined.



Lemma draws_latest_app (shown : option MCmd) (tr l : list event) :
  draws_latest shown (tr ++ l)
  = draws_latest shown tr
    && draws_latest (match last_publish tr with Some m => Some m | None => shown end) l.
Proof.
  revert shown. induction tr as [|e tr IH]; intros shown.
  - reflexivity.
  - destruct e as [m|f|d|t b|ms]; simpl.
    + rewrite IH. destruct (last_publish tr); reflexivity.
    + rewrite IH. destruct (last_publish tr); reflexivity.
    + rewrite IH. destruct (last_publish tr); reflexivity.
    + destruct shown as [m|]; [|reflexivity].
      rewrite IH, <- !andb_assoc. destruct (last_publish tr); reflexivity.
    + rewrite IH. destruct (last_publish tr); reflexivity.
Qed.

Lemma step_slot_agrees (a : action) (st : device) :
  slot_agrees st -> slot_agrees (step a st).
Proof.
  intros [Hd (m & Hm & Ht & Hb)].
  destruct a as [now p|draw ti]; cbn [step].
  - destruct (main_loop_publishes now p st) as (m' & rest & -> & _ & Hdr & Hpr).
    unfold slot_agrees. cbn [trace monitor_cmd]. split.
    + rewrite draws_latest_app, Hd, Hm. cbn [andb draws_latest].
      clear - Hdr Hpr. revert Hdr Hpr. generalize (Some m') as s.
      induction rest as [|e rest IH]; intros s Hdr Hpr; [reflexivity|].
      destruct e; cbn in Hdr, Hpr; try discriminate;
        cbn [draws_latest]; apply IH; assumption.
    + exists m'. split; [apply last_publish_after, Hpr | split; reflexivity].
  - destruct (rendered (monitor_cmd st)) eqn:E.
    + rewrite (monitor_shown _ _ _ E). unfold slot_agrees. cbn [trace monitor_cmd]. split.
      * rewrite draws_latest_app, Hd. reflexivity.
      * exists m. rewrite last_publish_app. cbn. auto.
    + destruct draw as [e|].
      * rewrite (monitor_fails _ _ _ E). unfold slot_agrees. cbn [trace monitor_cmd]. split.
        -- rewrite draws_latest_app, Hd. reflexivity.
        -- eexists. split; [apply last_publish_after; reflexivity|].
           split; reflexivity.
      * rewrite (monitor_draws _ _ E). unfold slot_agrees. cbn [trace monitor_cmd]. split.
        -- rewrite draws_latest_app, Hd, Hm. cbn [andb draws_latest].
           rewrite Ht, Hb, !String.eqb_refl. reflexivity.
        -- exists m. rewrite last_publish_app. cbn. auto.
Qed.

(** In every run in which [poll] does not raise, each drawing shows the
    status that was published last before it: a status that has been
    replaced is never shown.  Every assignment to [monitor_cmd] of such a
    run is made under the lock the monitor holds while it draws; the one
    made when [poll] raises is not, and runs with it are left out. *)
Theorem monitor_shows_latest (acts : list action) (st : device) :
  forallb poll_returns acts = true ->
  slot_agrees st ->
  draws_latest None (trace (run acts st)) = true /\ slot_agrees (run acts st).
Proof.
  revert st. induction acts as [|a acts IH]; intros st Hp H.
  - split; [exact (proj1 H) | exact H].
  - change (run (a :: acts) st) with (run acts (step a st)).
    cbn [forallb] in Hp. apply andb_true_iff in Hp.
    apply IH; [apply Hp | apply step_slot_agrees, H].
Qed.

Lemma monitor_shows_latest_witness :
  draws_latest None
    (trace (run [MonitorPass None 20;
                 MainPass 1 (PollLine (command_line "10000" "100"));
                 MainPass 2 PollTimeout;
                 MonitorPass None 20;
                 MonitorPass None 20]
                device_init)) = true.
Proof.
  refine (proj1 (monitor_shows_latest _ device_init _ _)).
  - reflexivity.
  - split; [reflexivity|]. eexists. split; [reflexivity|]. split; reflexivity.
Defined.

End DeviceRuns.

(** * Further properties of the PID controller *)

Section PidMore.

Local Open Scope Q_scope.

Lemma to_Q_add (a b : num) : to_Q (a + b)%num == to_Q a + to_Q b.
Proof.
  destruct a, b; cbn [Py.add to_Q]; try reflexivity;
    rewrite inject_Z_plus; reflexivity.
Qed.

Lemma to_Q_sub (a b : num) : to_Q (a - b)%num == to_Q a - to_Q b.
Proof.
  destruct a, b; cbn [Py.sub to_Q]; try reflexivity;
    unfold Z.sub, Qminus; rewrite inject_Z_plus, inject_Z_opp; reflexivity.
Qed.

Lemma to_Q_mul (a b : num) : to_Q (a * b)%num == to_Q a * to_Q b.
Proof.
  destruct a, b; cbn [Py.mul to_Q]; try reflexivity;
    rewrite inject_Z_mult; reflexivity.
Qed.

(** The value the limited accumulator takes, by cases. *)
Lemma clamp_value (lo hi x : num) :
  to_Q lo <= to_Q hi ->
  (to_Q hi <= to_Q x -> to_Q (clamp lo hi x) == to_Q hi) /\
  (to_Q x <= to_Q lo -> to_Q (clamp lo hi x) == to_Q lo) /\
  (to_Q lo <= to_Q x <= to_Q hi -> to_Q (clamp lo hi x) == to_Q x).
Proof.
  intros Hlh. unfold clamp, Py.min, Py.max, Py.gtb.
  destruct (Py.ltb x lo) eqn:E1.
  - apply ltb_lt in E1.
    destruct (Py.ltb hi lo) eqn:E2.
    + apply ltb_lt in E2. exfalso. exact (Qlt_not_le _ _ E2 Hlh).
    + split; [|split].
      * intros H. apply Qle_antisym; [exact Hlh|].
        apply Qle_trans with (to_Q x); [exact H | apply Qlt_le_weak, E1].
      * intros _. reflexivity.
      * intros [H _]. exfalso. exact (Qlt_not_le _ _ E1 H).
  - apply ltb_ge in E1.
    destruct (Py.ltb hi x) eqn:E2.
    + apply ltb_lt in E2. split; [|split].
      * intros _. reflexivity.
      * intros H. apply Qle_antisym; [|exact Hlh].
        apply Qle_trans with (to_Q x); [apply Qlt_le_weak, E2 | exact H].
      * intros [_ H]. exfalso. exact (Qlt_not_le _ _ E2 H).
    + apply ltb_ge in E2. split; [|split].
      * intros H. apply Qle_antisym; assumption.
      * intros H. apply Qle_antisym; assumption.
      * intros _. reflexivity.
Qed.

(** The accumulator after a call, against the clamp bounds. *)
Lemma pid_accumulator_clamped (self : Pid) (feedback : num) :
  to_Q (accumulate_error_min self) <= to_Q (accumulate_error_max self) ->
  to_Q (accumulate_error_max self)
  <= to_Q (accumulate_error self) + (to_Q (target self) - to_Q feedback) ->
  to_Q (accumulate_error (snd (pid self feedback)))
  == to_Q (accumulate_error_max self).
Proof.
  intros Hlh Hsum. rewrite pid_accumulate_error.
  apply (proj1 (clamp_value _ _ _ Hlh)).
  now rewrite to_Q_add, to_Q_sub.
Qed.

(** Anti-windup.  With [i_min <= i_max], a call whose error would carry
    the accumulator to [i_max] or beyond leaves it at [i_max]; one that
    would carry it to [i_min] or below leaves it at [i_min]; otherwise the
    accumulator is the old one plus the error. *)
Theorem pid_accumulator_saturates (self : Pid) (feedback : num) :
  to_Q (accumulate_error_min self) <= to_Q (accumulate_error_max self) ->
  let sum := to_Q (accumulate_error self) + (to_Q (target self) - to_Q feedback) in
  let acc' := to_Q (accumulate_error (snd (pid self feedback))) in
  (to_Q (accumulate_error_max self) <= sum ->
   acc' == to_Q (accumulate_error_max self)) /\
  (sum <= to_Q (accumulate_error_min self) ->
   acc' == to_Q (accumulate_error_min self)) /\
  (to_Q (accumulate_error_min self) <= sum <= to_Q (accumulate_error_max self) ->
   acc' == sum).
Proof.
  intros Hlh. cbv zeta. rewrite pid_accumulate_error.
  set (x := (accumulate_error self + (target self - feedback))%num).
  assert (Hx : to_Q x
               == to_Q (accumulate_error self) + (to_Q (target self) - to_Q feedback)).
  { unfold x. now rewrite to_Q_add, to_Q_sub. }
  rewrite <- Hx.
  exact (clamp_value _ _ x Hlh).
Qed.

Lemma pid_accumulator_saturates_witness :
  to_Q (accumulate_error
          (snd (pid (Pid_init (Float 1) (Float 1) (Float 0) (Float 150)
                              (Int (-100)) (Int 100))
                    (Float 0))))
  == 100.
Proof.
  refine (proj1 (pid_accumulator_saturates
                   (Pid_init (Float 1) (Float 1) (Float 0) (Float 150)
                             (Int (-100)) (Int 100))
                   (Float 0) _) _).
  - discriminate.
  - discriminate.
Defined.

(** Once a non-negative error has carried the accumulator to [i_max], it
    stays exactly there for as many further calls with that feedback as
    are made: the integral term stops growing. *)
Theorem pid_accumulator_stays_pinned (n : nat) (self : Pid) (feedback : num) :
  to_Q (accumulate_error_min self) <= to_Q (accumulate_error_max self) ->
  0 <= to_Q (target self) - to_Q feedback ->
  to_Q (accumulate_error_max self)
  <= to_Q (accumulate_error self) + (to_Q (target self) - to_Q feedback) ->
  to_Q (accumulate_error (pid_repeat (S n) self feedback))
  == to_Q (accumulate_error_max self).
Proof.
  revert self. induction n as [|n IH]; intros self Hlh He Hsum.
  - cbn [pid_repeat]. exact (pid_accumulator_clamped self feedback Hlh Hsum).
  - change (pid_repeat (S (S n)) self feedback)
      with (pid_repeat (S n) (snd (pid self feedback)) feedback).
    pose proof (pid_accumulator_clamped self feedback Hlh Hsum) as H1.
    rewrite IH.
    + reflexivity.
    + exact Hlh.
    + exact He.
    + change (target (snd (pid self feedback))) with (target self).
      change (accumulate_error_max (snd (pid self feedback)))
        with (accumulate_error_max self).
      rewrite H1.
      rewrite <- (Qplus_0_r (to_Q (accumulate_error_max self))) at 1.
      apply Qplus_le_r, He.
Qed.

Lemma pid_accumulator_stays_pinned_witness :
  to_Q (accumulate_error
          (pid_repeat (S (Z.to_nat 9999))
                      (Pid_init (Float 150000) (Float 7000) (Float 0) (Float 150)
                                (Int (-100)) (Int 100))
                      (Float 0)))
  == 100.
Proof.
  apply (pid_accumulator_stays_pinned (Z.to_nat 9999)
           (Pid_init (Float 150000) (Float 7000) (Float 0) (Float 150)
                     (Int (-100)) (Int 100))
           (Float 0)); discriminate.
Defined.

End PidMore.

Section PidCalls.

Lemma ext_pid_apply_bounds (self : Ext.Pid) (c : Ext.pid_call) :
  Ext.accumulate_error_min (Ext.pid_apply self c) = Ext.accumulate_error_min self /\
  Ext.accumulate_error_max (Ext.pid_apply self c) = Ext.accumulate_error_max self.
Proof.
  destruct c as [fb|t|pidt]; cbn [Ext.pid_apply]; try (split; reflexivity).
  destruct pidt as [|a [|b [|c [|e [|g r]]]]]; split; reflexivity.
Qed.

Lemma ext_pid_apply_bounded (self : Ext.Pid) (c : Ext.pid_call) :
  Ext.bounded self ->
  Ext.call_finite c = true ->
  Ext.bounded (Ext.pid_apply self c).
Proof.
  intros H Hc. destruct c as [fb|t|pidt]; cbn [Ext.pid_apply Ext.call_finite] in *.
  - apply ext_pid_bounded; assumption.
  - destruct H as (Hr & _ & Hmin & Hmax). repeat split; try assumption; apply Hr.
  - destruct pidt as [|a [|b [|c [|e [|g r]]]]]; cbn [Ext.set_pidt]; try exact H.
    destruct H as (Hr & _ & Hmin & Hmax). repeat split; try assumption; apply Hr.
Qed.

(** A controller built with the default bounds keeps them whatever
    sequence of [pid], [set_target] and [set_pidt] calls it receives,
    failed [set_pidt] calls and readings that are not finite included.
    When the first target and every feedback and target the calls bring
    are finite, its accumulator stays in [[-100, 100]]. *)
Theorem pid_calls_keep_default_bounds (p i d t : Ext.xnum)
    (calls : list Ext.pid_call) :
  let self := Ext.pid_calls (Ext.Pid_new p i d t) calls in
  Ext.accumulate_error_min self = Ext.Fin (Int (-100)) /\
  Ext.accumulate_error_max self = Ext.Fin (Int 100) /\
  (Ext.is_finite t = true ->
   forallb Ext.call_finite calls = true ->
   Ext.leb (Ext.Fin (Int (-100))) (Ext.accumulate_error self) = true /\
   Ext.leb (Ext.accumulate_error self) (Ext.Fin (Int 100)) = true).
Proof.
  cbv zeta.
  assert (Hb : forall self,
             Ext.accumulate_error_min (Ext.pid_calls self calls)
             = Ext.accumulate_error_min self /\
             Ext.accumulate_error_max (Ext.pid_calls self calls)
             = Ext.accumulate_error_max self).
  { induction calls as [|c calls IH]; intros self; [split; reflexivity|].
    change (Ext.pid_calls self (c :: calls))
      with (Ext.pid_calls (Ext.pid_apply self c) calls).
    destruct (IH (Ext.pid_apply self c)) as [-> ->].
    apply ext_pid_apply_bounds. }
  destruct (Hb (Ext.Pid_new p i d t)) as [Hmin Hmax].
  split; [exact Hmin|]. split; [exact Hmax|].
  intros Ht Hcalls.
  assert (H0 : Ext.bounded (Ext.Pid_new p i d t)).
  { split; [split; reflexivity|]. split; [exact Ht|]. split; reflexivity. }
  assert (Hgen : forall self,
             Ext.bounded self ->
             forallb Ext.call_finite calls = true ->
             Ext.bounded (Ext.pid_calls self calls)).
  { clear. induction calls as [|c calls IH]; intros self H Hc; [exact H|].
    cbn [forallb] in Hc. apply andb_true_iff in Hc. destruct Hc as [Hc Hcs].
    change (Ext.pid_calls self (c :: calls))
      with (Ext.pid_calls (Ext.pid_apply self c) calls).
    apply IH; [apply ext_pid_apply_bounded; assumption | exact Hcs]. }
  destruct (Hgen _ H0 Hcalls) as ([Hlo Hhi] & _).
  rewrite Hmin in Hlo. rewrite Hmax in Hhi. split; assumption.
Qed.

Lemma pid_calls_keep_default_bounds_witness :
  let self :=
    Ext.pid_calls
      (Ext.Pid_new (Ext.Fin (Float 150000)) (Ext.Fin (Float 7000))
                   (Ext.Fin (Float 0)) (Ext.Fin (Float 1)))
      [Ext.CallPid (Ext.Fin (Float 0.5));
       Ext.CallSetPidt [Ext.Fin (Int 1); Ext.NonFin NaN];
       Ext.CallSetTarget (Ext.Fin (Int 300));
       Ext.CallPid (Ext.Fin (Float 0.5))] in
  Ext.leb (Ext.Fin (Int (-100))) (Ext.accumulate_error self) = true /\
  Ext.leb (Ext.accumulate_error self) (Ext.Fin (Int 100)) = true.
Proof.
  exact (proj2 (proj2
           (pid_calls_keep_default_bounds
              (Ext.Fin (Float 150000)) (Ext.Fin (Float 7000))
              (Ext.Fin (Float 0)) (Ext.Fin (Float 1))
              [Ext.CallPid (Ext.Fin (Float 0.5));
               Ext.CallSetPidt [Ext.Fin (Int 1); Ext.NonFin NaN];
               Ext.CallSetTarget (Ext.Fin (Int 300));
               Ext.CallPid (Ext.Fin (Float 0.5))]))
           eq_refl eq_refl).
Defined.

End PidCalls.

(** * Further properties of the host program *)

Section HostMore.

Local Open Scope list_scope.

Lemma slider_duty_eq (percent : Z) : slider_duty percent = Z.quot (percent * 65535) 100.
Proof.
  unfold slider_duty, truediv, Py.trunc. cbn.
  now rewrite Z.mul_1_r.
Qed.

(** The open-loop button turns a slider value of 0 to 100 percent into a
    duty of 0 to 65535, growing with the slider, and stores the duty it
    sends. *)
Theorem open_loop_duty_range (float_repr : Q -> string) (pwm_freq percent : Z)
    (st : session) :
  (0 <= percent <= 100)%Z ->
  let st' := open_loop_set float_repr pwm_freq percent st in
  current_pwm_duty st' = Int (slider_duty percent) /\
  (0 <= slider_duty percent <= 65535)%Z /\
  slider_duty 0 = 0%Z /\ slider_duty 100 = 65535%Z /\
  (forall percent', (percent <= percent')%Z ->
                    (slider_duty percent <= slider_duty percent')%Z) /\
  micro_controller st'
  = micro_controller st ++ [(command_text pwm_freq (slider_duty percent) ++ newline)%string].
Proof.
  intros Hp. cbv zeta. split; [reflexivity|].
  rewrite !slider_duty_eq. split.
  - rewrite Z.quot_div_nonneg by lia.
    split; [apply Z.div_pos; lia|].
    apply Z.div_le_upper_bound; lia.
  - split; [reflexivity|]. split; [reflexivity|]. split.
    + intros percent' Hle. rewrite slider_duty_eq, !Z.quot_div_nonneg by lia.
      apply Z.div_le_mono; lia.
    + unfold open_loop_set, set_pwm. cbn [micro_controller].
      rewrite (json_dumps_command float_repr). fold (slider_duty percent).
      now rewrite slider_duty_eq.
Qed.

Lemma open_loop_duty_range_witness :
  current_pwm_duty (open_loop_set repr_decimal 10000 25 session_init) = Int 16383.
Proof.
  apply (open_loop_duty_range repr_decimal 10000 25 session_init). lia.
Defined.

End HostMore.

Section HostRunProperties.

Local Open Scope list_scope.

Lemma host_step_facts (float_repr : Q -> string) (st : session) (a : host_action) :
  let st' := host_step float_repr st a in
  time_list st' = time_list st ++ tick_times [a] /\
  power_list st' = power_list st ++ tick_powers [a] /\
  current_pwm_duty st' = last_button_duty (current_pwm_duty st) [a] /\
  (integral_in_range (pid_controller st) -> integral_in_range (pid_controller st')) /\
  (slider_ok a ->
   exists l, micro_controller st' = micro_controller st ++ l /\
             Forall (host_line float_repr) l /\ (List.length l <= 1)%nat).
Proof.
  cbv zeta. destruct a as [f pc|p i d t|on|f pw ct]; cbn [host_step tick_times
    tick_powers flat_map last_button_duty fold_left app].
  - unfold open_loop_set.
    cbn [time_list power_list current_pwm_duty pid_controller micro_controller].
    rewrite !app_nil_r.
    split; [reflexivity|]. split; [reflexivity|]. split; [reflexivity|].
    split; [intros H; exact H|].
    intros [Hf Hp]. eexists. split; [reflexivity|]. split; [|cbn; lia].
    constructor; [|constructor].
    exists f, (Int (slider_duty pc)). split; [reflexivity|].
    assert (R : (0 <= slider_duty pc <= 65535)%Z).
    { rewrite slider_duty_eq, Z.quot_div_nonneg by lia.
      split; [apply Z.div_pos; lia | apply Z.div_le_upper_bound; lia]. }
    split; apply leb_le; cbn [to_Q]; rewrite <- Zle_Qle; lia.
  - cbn [time_list power_list current_pwm_duty pid_controller micro_controller].
    rewrite !app_nil_r.
    split; [reflexivity|]. split; [reflexivity|]. split; [reflexivity|].
    split; [intros H; exact H|].
    intros _. exists []. rewrite app_nil_r.
    split; [reflexivity|]. split; [constructor | cbn; lia].
  - cbn [time_list power_list current_pwm_duty pid_controller micro_controller].
    rewrite !app_nil_r.
    split; [reflexivity|]. split; [reflexivity|]. split; [reflexivity|].
    split; [intros H; exact H|].
    intros _. exists []. rewrite app_nil_r.
    split; [reflexivity|]. split; [constructor | cbn; lia].
  - unfold control_tick.
    destruct (closed_loop_running st) eqn:Eon.
    + destruct (pid (pid_controller st) pw) as [out pid'] eqn:Epid.
      cbn [time_list power_list current_pwm_duty pid_controller micro_controller].
      split; [reflexivity|]. split; [reflexivity|]. split; [reflexivity|].
      split.
      * intros H.
        replace pid' with (snd (pid (pid_controller st) pw)) by now rewrite Epid.
        apply pid_step_in_range, H.
      * intros Hf. eexists. split; [reflexivity|]. split; [|cbn; lia].
        constructor; [|constructor].
        eexists f, _. split; [reflexivity|]. apply duty_limits.
    + cbn [time_list power_list current_pwm_duty pid_controller micro_controller].
      split; [reflexivity|]. split; [reflexivity|]. split; [reflexivity|].
      split; [intros H; exact H|].
      intros _. exists []. rewrite app_nil_r.
      split; [reflexivity|]. split; [constructor | cbn; lia].
Qed.

Lemma tick_times_cons (a : host_action) (acts : list host_action) :
  tick_times (a :: acts) = tick_times [a] ++ tick_times acts.
Proof. unfold tick_times. cbn [flat_map]. now rewrite app_nil_r. Qed.

Lemma tick_powers_cons (a : host_action) (acts : list host_action) :
  tick_powers (a :: acts) = tick_powers [a] ++ tick_powers acts.
Proof. unfold tick_powers. cbn [flat_map]. now rewrite app_nil_r. Qed.

(** The two series of samples only grow, by one clock value and one
    reading per tick, in the order of the ticks, whether closed-loop
    control is on or off; they stay equally long. *)
Theorem samples_append_only (float_repr : Q -> string) (acts : list host_action)
    (st : session) :
  let st' := host_run float_repr st acts in
  time_list st' = time_list st ++ tick_times acts /\
  power_list st' = power_list st ++ tick_powers acts /\
  List.length (tick_times acts) = List.length (tick_powers acts).
Proof.
  cbv zeta. revert st. induction acts as [|a acts IH]; intros st.
  - cbn. rewrite !app_nil_r. repeat split.
  - change (host_run float_repr st (a :: acts))
      with (host_run float_repr (host_step float_repr st a) acts).
    destruct (IH (host_step float_repr st a)) as (Ht & Hp & Hl).
    destruct (host_step_facts float_repr st a) as (Ht1 & Hp1 & _).
    rewrite (tick_times_cons a acts), (tick_powers_cons a acts).
    rewrite Ht, Hp, Ht1, Hp1, <- !app_assoc.
    split; [reflexivity|]. split; [reflexivity|].
    rewrite !length_app, Hl. destruct a; reflexivity.
Qed.

(** Only the open-loop button moves the stored duty: after any run it is
    the duty of the last press of that button, or the one before the run
    when the button was not pressed, however many closed-loop ticks ran. *)
Theorem stored_duty_follows_button (float_repr : Q -> string)
    (acts : list host_action) (st : session) :
  current_pwm_duty (host_run float_repr st acts)
  = last_button_duty (current_pwm_duty st) acts.
Proof.
  revert st. induction acts as [|a acts IH]; intros st; [reflexivity|].
  change (host_run float_repr st (a :: acts))
    with (host_run float_repr (host_step float_repr st a) acts).
  rewrite IH.
  destruct (host_step_facts float_repr st a) as (_ & _ & -> & _).
  reflexivity.
Qed.

(** With the sliders inside their bounds, the serial port only receives
    whole lines, appended in order and at most one per action, each a
    record of an int frequency and a duty inside [[0, 65535]]. *)
Theorem host_run_writes_valid_lines (float_repr : Q -> string)
    (acts : list host_action) (st : session) :
  Forall slider_ok acts ->
  let st' := host_run float_repr st acts in
  exists l, micro_controller st' = micro_controller st ++ l /\
            Forall (host_line float_repr) l /\
            (List.length l <= List.length acts)%nat.
Proof.
  cbv zeta. revert st. induction acts as [|a acts IH]; intros st Hok.
  - exists []. rewrite app_nil_r. repeat split; constructor.
  - change (host_run float_repr st (a :: acts))
      with (host_run float_repr (host_step float_repr st a) acts).
    inversion Hok as [|a' acts' Ha Hacts]; subst.
    destruct (host_step_facts float_repr st a) as (_ & _ & _ & _ & Hl1).
    destruct (Hl1 Ha) as (l1 & E1 & F1 & L1).
    destruct (IH (host_step float_repr st a) Hacts) as (l2 & E2 & F2 & L2).
    exists (l1 ++ l2). rewrite E2, E1, <- app_assoc.
    split; [reflexivity|]. split; [apply Forall_app; split; assumption|].
    rewrite length_app. cbn [List.length]. lia.
Qed.

Lemma host_run_writes_valid_lines_witness :
  exists l,
    micro_controller
      (host_run repr_decimal session_init
         [SetPwmButton 10000 50;
          SetPidButton (Float 150000) (Float 7000) (Float 0) (Float 1);
          Tick 10000 (Float 0.9375) (Float 0);
          ClosedLoopToggle true;
          Tick 10000 (Float 0.9375) (Float 1)])
    = micro_controller session_init ++ l /\
    Forall (host_line repr_decimal) l /\
    (List.length l <= 5)%nat.
Proof.
  refine (host_run_writes_valid_lines repr_decimal
            [SetPwmButton 10000 50;
             SetPidButton (Float 150000) (Float 7000) (Float 0) (Float 1);
             Tick 10000 (Float 0.9375) (Float 0);
             ClosedLoopToggle true;
             Tick 10000 (Float 0.9375) (Float 1)]
            session_init _).
  repeat constructor; lia.
Defined.

End HostRunProperties.

(** * The host and the device together *)

Section HostToDevice.

Local Open Scope list_scope.

(** A press of the open-loop button, with the sliders inside their bounds,
    writes a line the device accepts: the main loop sets the PWM to the
    slider frequency and to the duty the host stored. *)
Theorem open_loop_line_accepted (float_repr : Q -> string) (pwm_freq percent now : Z)
    (st : session) (dev : device) :
  1000 <= pwm_freq <= 100000 -> 0 <= percent <= 100 ->
  exists line,
    micro_controller (open_loop_set float_repr pwm_freq percent st)
    = micro_controller st ++ [line] /\
    decode line = Ok (pwm_freq, slider_duty percent) /\
    current_pwm_duty (open_loop_set float_repr pwm_freq percent st)
    = Int (slider_duty percent) /\
    filter is_pwm (new_events dev (main_loop now (PollLine line) dev))
    = [SetFreq pwm_freq; SetDutyU16 (slider_duty percent)].
Proof.
  intros Hf Hp.
  exists (command_text pwm_freq (slider_duty percent) ++ newline)%string.
  assert (R : 0 <= slider_duty percent <= 65535).
  { rewrite slider_duty_eq, Z.quot_div_nonneg by lia.
    split; [apply Z.div_pos; lia | apply Z.div_le_upper_bound; lia]. }
  assert (E : decode (command_text pwm_freq (slider_duty percent) ++ newline)%string
              = Ok (pwm_freq, slider_duty percent))
    by (apply decode_command; lia).
  split.
  - unfold open_loop_set, set_pwm. cbn [micro_controller].
    rewrite (json_dumps_command float_repr). reflexivity.
  - split; [exact E|]. split; [reflexivity|].
    rewrite (main_loop_success _ _ _ _ _ E), new_events_app. reflexivity.
Qed.

Lemma open_loop_line_accepted_witness :
  exists line,
    micro_controller (open_loop_set repr_decimal 10000 50 session_init) = [line] /\
    decode line = Ok (10000, 32767) /\
    current_pwm_duty (open_loop_set repr_decimal 10000 50 session_init) = Int 32767 /\
    filter is_pwm (new_events device_init (main_loop 0 (PollLine line) device_init))
    = [SetFreq 10000; SetDutyU16 32767].
Proof.
  apply (open_loop_line_accepted repr_decimal 10000 50 0 session_init device_init);
    lia.
Defined.

Lemma trunc_duty_range (y : num) :
  (0 <= to_Q y)%Q -> (to_Q y <= 65535)%Q -> 0 <= Py.trunc y <= 65535.
Proof.
  destruct y as [z|[n d]]; cbn [to_Q Py.trunc Qnum Qden].
  - unfold Qle. cbn [Qnum Qden inject_Z]. intros H1 H2. lia.
  - unfold Qle. cbn [Qnum Qden]. intros H1 H2.
    rewrite Z.mul_1_r in H1. rewrite Z.quot_div_nonneg by lia.
    split; [apply Z.div_pos; lia | apply Z.div_le_upper_bound; lia].
Qed.

(** A closed-loop tick writes a line whose duty may be a float.  Whenever
    the device reads that line back as the same frequency and a number of
    the same value, it accepts the command: the frequency is the slider
    value and the duty is the host duty with its fraction cut off, inside
    [[0, 65535]]. *)
Theorem closed_loop_line_accepted (float_repr : Q -> string) (pwm_freq now : Z)
    (power_value current_time : num) (st : session) (dev : device) (y : num) :
  closed_loop_running st = true ->
  1000 <= pwm_freq <= 1000000 ->
  let duty := tick_duty power_value st in
  let line := (json_dumps float_repr
                 (PyDict [("freq", PyNum (Int pwm_freq)); ("duty", PyNum duty)])
               ++ newline)%string in
  json_loads (strip line)
  = Some (PyDict [("freq", PyNum (Int pwm_freq)); ("duty", PyNum y)]) ->
  (to_Q y == to_Q duty)%Q ->
  micro_controller (control_tick float_repr pwm_freq power_value current_time st)
  = micro_controller st ++ [line] /\
  decode line = Ok (pwm_freq, Py.trunc y) /\
  0 <= Py.trunc y <= 65535 /\
  filter is_pwm (new_events dev (main_loop now (PollLine line) dev))
  = [SetFreq pwm_freq; SetDutyU16 (Py.trunc y)].
Proof.
  intros Hon Hf. cbv zeta. intros Hread Hy.
  assert (R : 0 <= Py.trunc y <= 65535).
  { destruct (duty_limits
                (current_pwm_duty st + fst (pid (pid_controller st) power_value))%num)
      as [H0 H1].
    apply leb_le in H0, H1. fold (tick_duty power_value st) in H0, H1.
    apply trunc_duty_range.
    - apply Qle_trans with (1 := H0). apply Qle_lteq. right. symmetry. exact Hy.
    - apply Qle_trans with (2 := H1). apply Qle_lteq. right. exact Hy. }
  split.
  - unfold control_tick, tick_duty. rewrite Hon.
    destruct (pid (pid_controller st) power_value) as [out pid']. reflexivity.
  - match goal with
    | |- decode ?l = _ /\ _ =>
        assert (E : decode l = Ok (pwm_freq, Py.trunc y))
    end.
    { rewrite (decode_record _ [("freq", PyNum (Int pwm_freq)); ("duty", PyNum y)]
                 (PyNum (Int pwm_freq)) (PyNum y));
        [ | unfold load_cmd; rewrite Hread; reflexivity
          | reflexivity | reflexivity ].
      change (py_int (PyNum (Int pwm_freq))) with (Ok pwm_freq).
      change (py_int (PyNum y)) with (Ok (Py.trunc y)).
      cbn [bind].
      rewrite (in_range_true pwm_freq (Py.trunc y)); [reflexivity | lia | exact R]. }
    split; [exact E|]. split; [exact R|].
    rewrite (main_loop_success _ _ _ _ _ E), new_events_app. reflexivity.
Qed.

Lemma closed_loop_line_accepted_witness :
  decode (command_line "10000" "9812.5") = Ok (10000, 9812).
Proof.
  refine (proj1 (proj2
    (closed_loop_line_accepted repr_decimal 10000 0 (Float 0.9375) (Float 0)
       session_example device_init (Float 9812.5) _ _ _ _))).
  - reflexivity.
  - lia.
  - reflexivity.
  - reflexivity.
Defined.

End HostToDevice.

(** * The status screen *)

Section Screen.

Local Open Scope list_scope.

Lemma split_char_nonempty (sep : ascii) (s : string) : split_char sep s <> [].
Proof.
  destruct s as [|c r]; cbn [split_char]; [discriminate|].
  destruct (Ascii.eqb c sep); [discriminate|].
  destruct (split_char sep r); discriminate.
Qed.

Lemma concat_cons (sep x : string) (l : list string) :
  l <> [] -> String.concat sep (x :: l) = (x ++ sep ++ String.concat sep l)%string.
Proof. destruct l; [intros H; contradiction H; reflexivity | reflexivity]. Qed.

Lemma concat_split_char (sep : ascii) (s : string) :
  String.concat (String sep "") (split_char sep s) = s.
Proof.
  induction s as [|c r IH]; [reflexivity|].
  cbn [split_char].
  pose proof (split_char_nonempty sep r) as Hne.
  destruct (Ascii.eqb c sep) eqn:E.
  - apply Ascii.eqb_eq in E. subst c.
    rewrite (concat_cons _ _ _ Hne), IH. reflexivity.
  - destruct (split_char sep r) as [|h t]; [contradiction Hne; reflexivity|].
    destruct t as [|h' t'].
    + cbn [String.concat] in IH. cbn [String.concat]. now rewrite IH.
    + rewrite concat_cons in IH by discriminate.
      rewrite concat_cons by discriminate.
      rewrite <- IH. reflexivity.
Qed.

Lemma texts_of_app (a b : list display_op) :
  texts_of (a ++ b) = texts_of a ++ texts_of b.
Proof. unfold texts_of. apply flat_map_app. Qed.

Lemma length_range (n : nat) : List.length (range (Z.of_nat n)) = n.
Proof. unfold range. now rewrite length_map, length_seq, Nat2Z.id. Qed.

Lemma texts_of_rows (rows : list string) (xs ys : list Z) :
  List.length xs = List.length rows -> List.length ys = List.length rows ->
  texts_of (map (fun mxy => Text (fst mxy) (fst (snd mxy)) (snd (snd mxy)))
                (combine rows (combine xs ys)))
  = rows.
Proof.
  revert xs ys. induction rows as [|r rows IH]; intros xs ys Hx Hy; [reflexivity|].
  destruct xs as [|x xs]; [discriminate Hx|].
  destruct ys as [|y ys]; [discriminate Hy|].
  change (texts_of
            (map (fun mxy => Text (fst mxy) (fst (snd mxy)) (snd (snd mxy)))
                 (combine (r :: rows) (combine (x :: xs) (y :: ys)))))
    with (r :: texts_of
                 (map (fun mxy => Text (fst mxy) (fst (snd mxy)) (snd (snd mxy)))
                      (combine rows (combine xs ys)))).
  f_equal. apply IH; [now injection Hx | now injection Hy].
Qed.

(** The rows [draw_message] makes of a message of at most 60 characters:
    its lines when it has a newline, else pieces of 15 characters. *)
Lemma texts_of_short (d : Display) (title message : string) :
  texts_of (draw_message_short d title message)
  = title ::
    (if has_char "010" message then split_char "010" message
     else map (fun i => substring (Z.to_nat (15 * i)) 15 message)
              (range (py_ceil (truediv (Int (len message)) (Int 15))))).
Proof.
  unfold draw_message_short, draw_header, draw_border.
  cbv zeta. rewrite !texts_of_app.
  rewrite texts_of_rows;
    [ | apply length_map | rewrite length_map; apply length_range ].
  cbn [texts_of flat_map app]. rewrite !app_nil_r. reflexivity.
Qed.

(** A message of more than 60 characters is not shown: the screen gets
    the two rows of the text [message too long] instead, under the same
    title. *)
Theorem draw_message_too_long (d : Display) (title message : string) :
  60 < len message ->
  draw_message d title message = draw_message d title "message too long" /\
  texts_of (draw_message d title message) = [title; "message too lon"; "g"].
Proof.
  intros H. unfold draw_message.
  replace (60 <? len message)%Z with true by (symmetry; apply Z.ltb_lt, H).
  split; reflexivity.
Qed.

Lemma draw_message_too_long_witness :
  texts_of (draw_message Display_default "C Error"
              "0123456789012345678901234567890123456789012345678901234567890")
  = ["C Error"; "message too lon"; "g"].
Proof.
  apply (draw_message_too_long Display_default "C Error"
           "0123456789012345678901234567890123456789012345678901234567890").
  reflexivity.
Defined.

(** A message with a newline is shown line by line, one row per line and
    no wrapping: joining the rows with newlines gives the message back. *)
Theorem draw_message_lines (d : Display) (title message : string) :
  len message <= 60 ->
  has_char "010" message = true ->
  exists rows,
    texts_of (draw_message d title message) = title :: rows /\
    rows = split_char "010" message /\
    String.concat newline rows = message /\
    rows <> [].
Proof.
  intros Hlen Hnl. exists (split_char "010" message).
  unfold draw_message.
  replace (60 <? len message)%Z with false by (symmetry; apply Z.ltb_ge, Hlen).
  rewrite texts_of_short, Hnl.
  split; [reflexivity|]. split; [reflexivity|].
  split; [apply concat_split_char | apply split_char_nonempty].
Qed.

Lemma draw_message_lines_witness :
  exists rows,
    texts_of (draw_message Display_default "PWM 1"
                ("FREQ: 10000" ++ newline ++ "DUTY: 50.00%")%string)
    = "PWM 1" :: rows /\
    rows = split_char "010" ("FREQ: 10000" ++ newline ++ "DUTY: 50.00%")%string /\
    String.concat newline rows
    = ("FREQ: 10000" ++ newline ++ "DUTY: 50.00%")%string /\
    rows <> [].
Proof.
  apply (draw_message_lines Display_default "PWM 1"
           ("FREQ: 10000" ++ newline ++ "DUTY: 50.00%")%string).
  - unfold len. cbn. lia.
  - reflexivity.
Defined.

Lemma substring_nil (n m : nat) : substring n m "" = ""%string.
Proof. destruct n, m; reflexivity. Qed.

Lemma substring_zero (s : string) : forall n, substring n 0 s = ""%string.
Proof.
  induction s as [|c s IH]; intros n; [apply substring_nil|].
  destruct n; [reflexivity | apply IH].
Qed.

Lemma substring_split (s : string) :
  forall off a b,
    substring off (a + b) s
    = (substring off a s ++ substring (off + a) b s)%string.
Proof.
  induction s as [|c s IH]; intros off a b.
  - now rewrite !substring_nil.
  - destruct off as [|off].
    + destruct a as [|a].
      * reflexivity.
      * cbn [Nat.add substring append]. now rewrite (IH 0%nat a b).
    + cbn [Nat.add substring]. apply IH.
Qed.

Lemma substring_all (s : string) :
  forall m, (String.length s <= m)%nat -> substring 0 m s = s.
Proof.
  induction s as [|c s IH]; intros m H.
  - apply substring_nil.
  - destruct m as [|m]; [cbn in H; lia|].
    cbn [substring]. rewrite IH; [reflexivity | cbn in H; lia].
Qed.

Lemma substring_length (s : string) :
  forall n m, (String.length (substring n m s) <= m)%nat.
Proof.
  induction s as [|c s IH]; intros n m.
  - rewrite substring_nil. cbn. lia.
  - destruct n as [|n].
    + destruct m as [|m]; cbn [substring String.length]; [lia|].
      specialize (IH 0%nat m). lia.
    + cbn [substring]. apply IH.
Qed.

Lemma append_nil_r (s : string) : (s ++ "")%string = s.
Proof. induction s as [|c s IH]; [reflexivity | cbn; now rewrite IH]. Qed.

Lemma concat_empty_cons (x : string) (l : list string) :
  String.concat "" (x :: l) = (x ++ String.concat "" l)%string.
Proof. destruct l; [cbn; now rewrite append_nil_r | reflexivity]. Qed.

Lemma concat_pieces (s : string) (n : nat) :
  forall off,
    String.concat "" (map (fun k => substring (off + 15 * k) 15 s) (seq 0 n))
    = substring off (15 * n) s.
Proof.
  induction n as [|n IH]; intros off.
  - cbn [seq map String.concat]. rewrite Nat.mul_0_r. symmetry. apply substring_zero.
  - cbn [seq map]. rewrite concat_empty_cons, <- seq_shift, map_map.
    replace (15 * S n)%nat with (15 + 15 * n)%nat by lia.
    rewrite substring_split, Nat.mul_0_r, Nat.add_0_r. f_equal.
    rewrite <- (IH (off + 15)%nat).
    f_equal. apply map_ext. intros k. f_equal. lia.
Qed.

(** The pieces a message without newline is cut into. *)
Lemma pieces_spec (message : string) :
  len message <= 60 ->
  let l := map (fun i => substring (Z.to_nat (15 * i)) 15 message)
               (range (py_ceil (truediv (Int (len message)) (Int 15)))) in
  (List.length l <= 4)%nat /\
  String.concat "" l = message /\
  Forall (fun r => len r <= 15) l.
Proof.
  intros Hlen. cbv zeta.
  assert (Hrows : py_ceil (truediv (Int (len message)) (Int 15))
                  = - ((- len message) / 15)).
  { unfold py_ceil, truediv. cbn. now rewrite Z.mul_1_r. }
  rewrite Hrows.
  set (rows := - (- len message / 15)).
  assert (Hr : 0 <= rows <= 4 /\ len message <= 15 * rows).
  { unfold rows.
    pose proof (Z.div_mod (- len message) 15 ltac:(lia)).
    pose proof (Z.mod_pos_bound (- len message) 15 ltac:(lia)).
    unfold len in *. lia. }
  unfold range. rewrite map_map.
  rewrite (map_ext _ (fun k => substring (0 + 15 * k) 15 message))
    by (intros k; f_equal; lia).
  split; [|split].
  - rewrite length_map, length_seq. lia.
  - rewrite concat_pieces. apply substring_all. unfold len in *. lia.
  - apply Forall_forall. intros r Hin.
    apply in_map_iff in Hin. destruct Hin as (k & <- & _).
    unfold len. pose proof (substring_length message (0 + 15 * k) 15). lia.
Qed.

Lemma x_of_bounds (r : string) :
  len r <= 15 -> 3 <= x_of r /\ x_of r + 8 * len r <= 123.
Proof.
  intros H.
  assert (E : x_of r = Z.quot (15 - len r) 2 * 8 + 3).
  { unfold x_of, truediv, Py.trunc. cbn. now rewrite Z.mul_1_r. }
  rewrite E.
  assert (0 <= len r) by (unfold len; lia).
  rewrite Z.quot_div_nonneg by lia.
  pose proof (Z.div_mod (15 - len r) 2 ltac:(lia)).
  pose proof (Z.mod_pos_bound (15 - len r) 2 ltac:(lia)).
  lia.
Qed.

(** On the 128 by 64 screen, a message of at most 60 characters without
    newline is shown whole, cut into at most four rows of at most 15
    characters in reading order, each row inside the screen and below the
    header; the frame is cleared first and shown last. *)
Theorem draw_message_wraps (title message : string) :
  len message <= 60 ->
  has_char "010" message = false ->
  exists body,
    draw_message Display_default title message
    = [Fill 0; Text title 3 3; HLine 0 14 128 1; Rect 0 0 128 64 1]
      ++ body ++ [Show] /\
    String.concat "" (texts_of body) = message /\
    (List.length body <= 4)%nat /\
    Forall row_fits body.
Proof.
  intros Hlen Hnl. unfold draw_message.
  replace (60 <? len message)%Z with false by (symmetry; apply Z.ltb_ge, Hlen).
  unfold draw_message_short. rewrite Hnl.
  destruct (pieces_spec message Hlen) as (Hl & Hc & Hf). cbv zeta in Hl, Hc, Hf.
  set (l := map (fun i => substring (Z.to_nat (15 * i)) 15 message)
                (range (py_ceil (truediv (Int (len message)) (Int 15))))) in *.
  clearbody l.
  assert (Hrow : forall r y, len r <= 15 -> 14 <= y <= 56 ->
                         row_fits (Text r (x_of r) y)).
  { intros r y Hr Hy. destruct (x_of_bounds r Hr) as [H1 H2].
    unfold row_fits. repeat split; try assumption; apply Hy. }
  destruct l as [|a [|b [|c [|d [|e l]]]]]; try (cbn in Hl; lia).
  - exists []. repeat split; try assumption; constructor.
  - apply Forall_cons_iff in Hf. destruct Hf as (Ha & _).
    exists [Text a (x_of a) 35]. split; [reflexivity|].
    split; [exact Hc|]. split; [cbn; lia|].
    repeat (apply Forall_cons; [apply Hrow; [assumption | lia] |]); apply Forall_nil.
  - apply Forall_cons_iff in Hf. destruct Hf as (Ha & Hf).
    apply Forall_cons_iff in Hf. destruct Hf as (Hb & _).
    exists [Text a (x_of a) 23; Text b (x_of b) 46]. split; [reflexivity|].
    split; [exact Hc|]. split; [cbn; lia|].
    repeat (apply Forall_cons; [apply Hrow; [assumption | lia] |]); apply Forall_nil.
  - apply Forall_cons_iff in Hf. destruct Hf as (Ha & Hf).
    apply Forall_cons_iff in Hf. destruct Hf as (Hb & Hf).
    apply Forall_cons_iff in Hf. destruct Hf as (Hcc & _).
    exists [Text a (x_of a) 17; Text b (x_of b) 35; Text c (x_of c) 52].
    split; [reflexivity|].
    split; [exact Hc|]. split; [cbn; lia|].
    repeat (apply Forall_cons; [apply Hrow; [assumption | lia] |]); apply Forall_nil.
  - apply Forall_cons_iff in Hf. destruct Hf as (Ha & Hf).
    apply Forall_cons_iff in Hf. destruct Hf as (Hb & Hf).
    apply Forall_cons_iff in Hf. destruct Hf as (Hcc & Hf).
    apply Forall_cons_iff in Hf. destruct Hf as (Hd & _).
    exists [Text a (x_of a) 14; Text b (x_of b) 28; Text c (x_of c) 42;
            Text d (x_of d) 56].
    split; [reflexivity|].
    split; [exact Hc|]. split; [cbn; lia|].
    repeat (apply Forall_cons; [apply Hrow; [assumption | lia] |]); apply Forall_nil.
Qed.

Lemma draw_message_wraps_witness :
  exists body,
    draw_message Display_default "C Error" "invalid freq or duty"
    = [Fill 0; Text "C Error" 3 3; HLine 0 14 128 1; Rect 0 0 128 64 1]
      ++ body ++ [Show] /\
    String.concat "" (texts_of body) = "invalid freq or duty"%string /\
    (List.length body <= 4)%nat /\
    Forall row_fits body.
Proof.
  apply (draw_message_wraps "C Error" "invalid freq or duty").
  - unfold len. cbn. lia.
  - reflexivity.
Defined.

End Screen.

(** ** How long the decimal text of an int is *)

Section Digits.

Lemma of_uint_acc_bounds (l : uint) :
  forall acc,
    Zpos acc * 10 ^ Z.of_nat (nb_digits l) <= Zpos (Pos.of_uint_acc l acc)
    /\ Zpos (Pos.of_uint_acc l acc) < (Zpos acc + 1) * 10 ^ Z.of_nat (nb_digits l).
Proof.
  induction l as [|l IH|l IH|l IH|l IH|l IH|l IH|l IH|l IH|l IH|l IH];
    intros acc;
    [cbn; lia | ..];
    cbn [Pos.of_uint_acc nb_digits];
    rewrite Nat2Z.inj_succ, Z.pow_succ_r by lia;
    match goal with
    | |- context [Pos.of_uint_acc l ?a] => destruct (IH a) as [H1 H2]
    end;
    assert (0 < 10 ^ Z.of_nat (nb_digits l)) by (apply Z.pow_pos_nonneg; lia);
    nia.
Qed.

Lemma length_string_of_uint (d : uint) :
  String.length (NilEmpty.string_of_uint d) = nb_digits d.
Proof. induction d; cbn; congruence. Qed.

(** A positive int with [n] digits lies in [[10^(n-1), 10^n)]. *)
Lemma str_int_pos_bounds (p : positive) :
  10 ^ (len (str_int (Zpos p)) - 1) <= Zpos p < 10 ^ len (str_int (Zpos p)).
Proof.
  unfold len, str_int. cbn [Z.to_int NilZero.string_of_int].
  pose proof (to_uint_head p) as Hhead.
  pose proof (of_uint_to_uint p) as Hval.
  unfold NilZero.string_of_uint.
  destruct (Pos.to_uint p) as [|l|l|l|l|l|l|l|l|l|l] eqn:E;
    [discriminate Hval | exfalso; apply (Hhead l); reflexivity | ..];
    rewrite length_string_of_uint; cbn [nb_digits];
    unfold Z.of_uint in Hval; cbn [Pos.of_uint Z.of_N] in Hval;
    rewrite Nat2Z.inj_succ, Z.pow_succ_r by lia;
    replace (Z.succ (Z.of_nat (nb_digits l)) - 1) with (Z.of_nat (nb_digits l)) by lia;
    match type of Hval with
    | Zpos (Pos.of_uint_acc l ?a) = _ =>
        destruct (of_uint_acc_bounds l a) as [H1 H2]
    end;
    rewrite Hval in H1, H2; lia.
Qed.

Lemma str_int_length_le (z : Z) (k : Z) :
  0 <= z < 10 ^ k -> 1 <= k -> len (str_int z) <= k.
Proof.
  intros [H0 Hk] H1. destruct z as [|p|p]; [cbn; lia | | lia].
  destruct (str_int_pos_bounds p) as [Hlo _].
  apply Z.nlt_ge. intros Hgt.
  assert (10 ^ k <= 10 ^ (len (str_int (Zpos p)) - 1))
    by (apply Z.pow_le_mono_r; lia).
  lia.
Qed.

Lemma str_int_length_ge (z : Z) (k : Z) :
  0 <= k -> 10 ^ k <= z -> k + 1 <= len (str_int z).
Proof.
  intros H0 Hk.
  assert (0 < 10 ^ k) by (apply Z.pow_pos_nonneg; lia).
  destruct z as [|p|p]; [lia | | lia].
  destruct (str_int_pos_bounds p) as [_ Hhi].
  apply Z.nlt_ge. intros Hlt.
  assert (10 ^ len (str_int (Zpos p)) <= 10 ^ k)
    by (apply Z.pow_le_mono_r; lia).
  lia.
Qed.

End Digits.

(** ** The status texts on the screen *)

Section StatusOnScreen.

Local Open Scope list_scope.

Lemma len_append (a b : string) : len (a ++ b)%string = len a + len b.
Proof.
  unfold len. induction a as [|c a IH]; [reflexivity|].
  cbn [append String.length]. rewrite !Nat2Z.inj_succ. lia.
Qed.

Lemma has_char_append (c : ascii) (a b : string) :
  has_char c (a ++ b)%string = has_char c a || has_char c b.
Proof.
  induction a as [|x a IH]; [reflexivity|].
  cbn [append has_char]. now rewrite IH, orb_assoc.
Qed.

Lemma string_of_uint_no_newline (d : uint) :
  has_char "010" (NilEmpty.string_of_uint d) = false.
Proof. induction d; cbn [NilEmpty.string_of_uint has_char]; try rewrite IHd; reflexivity. Qed.

Lemma nilzero_no_newline (d : uint) :
  has_char "010" (NilZero.string_of_uint d) = false.
Proof.
  destruct d; [reflexivity | ..];
    match goal with
    | |- has_char _ (NilZero.string_of_uint ?x) = _ =>
        exact (string_of_uint_no_newline x)
    end.
Qed.

(** The decimal text of an int holds no newline. *)
Lemma str_int_no_newline (z : Z) : has_char "010" (str_int z) = false.
Proof.
  unfold str_int. destruct z as [|p|p]; [reflexivity | | ];
    cbn [Z.to_int NilZero.string_of_int].
  - apply nilzero_no_newline.
  - cbn [has_char]. rewrite nilzero_no_newline. reflexivity.
Qed.

Lemma split_char_whole (sep : ascii) (s : string) :
  has_char sep s = false -> split_char sep s = [s].
Proof.
  induction s as [|c s IH]; [reflexivity|].
  cbn [has_char split_char]. intros H. apply orb_false_iff in H. destruct H as [Hc Hs].
  rewrite Hc, (IH Hs). reflexivity.
Qed.

Lemma split_char_first (sep : ascii) (a b : string) :
  has_char sep a = false ->
  split_char sep (a ++ String sep b)%string = a :: split_char sep b.
Proof.
  induction a as [|c a IH]; intros H.
  - cbn [append split_char]. now rewrite Ascii.eqb_refl.
  - cbn [has_char] in H. apply orb_false_iff in H. destruct H as [Hc Hs].
    cbn [append split_char]. rewrite Hc, (IH Hs). reflexivity.
Qed.

Lemma two_digits_facts (m : Z) :
  0 <= m < 100 ->
  len (two_digits m) <= 2 /\ has_char "010" (two_digits m) = false.
Proof.
  intros Hm. unfold two_digits. destruct (m <? 10)%Z eqn:E.
  - apply Z.ltb_lt in E. split.
    + rewrite len_append. pose proof (str_int_length_le m 1 ltac:(lia) ltac:(lia)).
      change (len "0") with 1. lia.
    + rewrite has_char_append, str_int_no_newline. reflexivity.
  - split.
    + apply str_int_length_le; lia.
    + apply str_int_no_newline.
Qed.

(** [f"{x:.2f}"] for [0 <= x <= 100]: at most six characters (up to
    [100.00]), none a newline. *)
Lemma format_2f_facts (x : num) :
  0 <= Qnum (to_Q x) ->
  Qnum (to_Q x) <= 100 * Zpos (Qden (to_Q x)) ->
  len (format_2f x) <= 6 /\ has_char "010" (format_2f x) = false.
Proof.
  intros H0 H1. unfold format_2f.
  set (n := Qnum (to_Q x)) in *. set (dd := Zpos (Qden (to_Q x))) in *.
  assert (Hdd : 0 < dd) by (unfold dd; lia).
  replace (n <? 0)%Z with false by (symmetry; apply Z.ltb_ge; lia).
  rewrite Z.abs_eq by lia.
  set (a := n * 100).
  match goal with
  | |- context [str_int (?K / 100)] => set (k := K)
  end.
  assert (Hk : 0 <= k <= 10001).
  { assert (0 <= a / dd <= 10000).
    { split; [apply Z.div_pos; unfold a; lia|].
      apply Z.div_le_upper_bound; unfold a; lia. }
    unfold k.
    match goal with
    | |- context [if ?b then _ else _] => destruct b; lia
    end. }
  clearbody k. clear a.
  assert (H100 : 0 <= k / 100 < 1000).
  { split; [apply Z.div_pos; lia|]. apply Z.div_lt_upper_bound; lia. }
  pose proof (Z.mod_pos_bound k 100 ltac:(lia)) as Hm.
  destruct (two_digits_facts (k mod 100) Hm) as [L2 N2].
  pose proof (str_int_length_le (k / 100) 3 ltac:(lia) ltac:(lia)) as L1.
  split.
  - rewrite !len_append. change (len "") with 0. change (len ".") with 1. lia.
  - rewrite !has_char_append, str_int_no_newline, N2. reflexivity.
Qed.

(** The duty shown, [f"{duty*100/65535:.2f}"], for a duty the main loop
    accepts. *)
Lemma percent_text_facts (d : Z) :
  0 <= d <= 65535 ->
  let s := format_2f (truediv (Int d * Int 100)%num (Int 65535)) in
  len s <= 6 /\ has_char "010" s = false.
Proof.
  intros Hd. cbv zeta. apply format_2f_facts.
  - change (0 <= d * 100 * 1). lia.
  - change (d * 100 * 1 <= 100 * 65535). lia.
Qed.

Lemma len_newline_cons (s : string) : len (String "010" s) = 1 + len s.
Proof. unfold len. cbn [String.length]. lia. Qed.

(** A title of [n] characters drawn by [draw_header] on the 128 by 64
    screen ends inside it exactly when [n <= 15]. *)
Lemma title_inside (s : string) :
  text_inside Display_default (Text s 3 3) <-> len s <= 15.
Proof.
  unfold text_inside, Display_default, TEXT_SIZE. cbn [_width _height].
  assert (0 <= len s) by (unfold len; lia). lia.
Qed.

(** The number of digits of a clock value against a power of ten. *)
Lemma str_int_length_iff (z k : Z) :
  0 <= z -> 1 <= k -> len (str_int z) <= k <-> z < 10 ^ k.
Proof.
  intros Hz Hk. split.
  - intros H. apply Z.nle_gt. intros Hge.
    pose proof (str_int_length_ge z k ltac:(lia) Hge). lia.
  - intros H. apply str_int_length_le; lia.
Qed.

(** The status of an accepted command on the screen.  After a line is
    accepted, the status left in the slot is drawn as the title
    [PWM <now>] and two centred rows, [FREQ: <freq>] at height 23 and
    [DUTY: <percent>%] at height 46, both inside the screen and below the
    header; the title ends inside the screen exactly when the clock value
    has at most eleven digits. *)
Theorem accepted_command_on_screen (now : Z) (line : string) (st : device)
    (f d : Z) :
  decode line = Ok (f, d) ->
  0 <= now ->
  let m := monitor_cmd (main_loop now (PollLine line) st) in
  let r1 := ("FREQ: " ++ str_int f)%string in
  let r2 := ("DUTY: " ++ format_2f (truediv (Int d * Int 100)%num (Int 65535))
             ++ "%")%string in
  draw_message Display_default (title m) (message m)
  = [Fill 0; Text ("PWM " ++ str_int now) 3 3; HLine 0 14 128 1;
     Rect 0 0 128 64 1; Text r1 (x_of r1) 23; Text r2 (x_of r2) 46; Show] /\
  row_fits (Text r1 (x_of r1) 23) /\
  row_fits (Text r2 (x_of r2) 46) /\
  (text_inside Display_default (Text ("PWM " ++ str_int now) 3 3)
   <-> now < 10 ^ 11).
Proof.
  intros E Hnow. cbv zeta.
  rewrite (main_loop_success _ _ _ _ _ E). cbn [monitor_cmd].
  destruct (decode_ok_inv _ _ _ E) as (_ & _ & _ & _ & _ & _ & _ & _ & Rf & Rd).
  destruct (percent_text_facts d Rd) as [Lp Np]. cbv zeta in Lp, Np.
  set (pc := format_2f (truediv (Int d * Int 100)%num (Int 65535))) in *.
  set (r1 := ("FREQ: " ++ str_int f)%string).
  set (r2 := ("DUTY: " ++ pc ++ "%")%string).
  assert (L1 : len r1 <= 13).
  { unfold r1. rewrite len_append. change (len "FREQ: ") with 6.
    pose proof (str_int_length_le f 7 ltac:(lia) ltac:(lia)). lia. }
  assert (L2 : len r2 <= 13).
  { unfold r2. rewrite !len_append. change (len "DUTY: ") with 6.
    change (len "%") with 1. lia. }
  assert (N1 : has_char "010" r1 = false).
  { unfold r1. rewrite has_char_append, str_int_no_newline. reflexivity. }
  assert (N2 : has_char "010" r2 = false).
  { unfold r2. rewrite !has_char_append, Np. reflexivity. }
  assert (Hmsg : message (success_status now f d) = (r1 ++ String "010" r2)%string).
  { unfold success_status, r1, r2, newline. cbn [message].
    rewrite (append_assoc "FREQ: " (str_int f)). reflexivity. }
  assert (Htitle : title (success_status now f d) = ("PWM " ++ str_int now)%string)
    by reflexivity.
  rewrite Hmsg, Htitle.
  split; [|split; [|split]].
  - unfold draw_message.
    replace (60 <? len (r1 ++ String "010" r2))%Z with false
      by (symmetry; apply Z.ltb_ge; rewrite len_append, len_newline_cons; lia).
    unfold draw_message_short.
    replace (has_char "010" (r1 ++ String "010" r2)) with true
      by (symmetry; rewrite has_char_append; cbn [has_char];
          rewrite Ascii.eqb_refl; apply orb_true_r).
    rewrite (split_char_first _ _ _ N1), (split_char_whole _ _ N2).
    reflexivity.
  - destruct (x_of_bounds r1 ltac:(lia)). unfold row_fits. lia.
  - destruct (x_of_bounds r2 ltac:(lia)). unfold row_fits. lia.
  - rewrite title_inside, len_append. change (len "PWM ") with 4.
    rewrite <- (str_int_length_iff now 11 Hnow ltac:(lia)). lia.
Qed.

Lemma accepted_command_on_screen_witness :
  draw_message Display_default "PWM 1700000000"
    ("FREQ: 10000" ++ newline ++ "DUTY: 50.00%")
  = [Fill 0; Text "PWM 1700000000" 3 3; HLine 0 14 128 1; Rect 0 0 128 64 1;
     Text "FREQ: 10000" 19 23; Text "DUTY: 50.00%" 11 46; Show].
Proof.
  refine (proj1 (accepted_command_on_screen 1700000000
                   (command_line "10000" "32768") device_init 10000 32768 _ _)).
  - vm_compute. reflexivity.
  - lia.
Defined.

(** The heartbeat on the screen.  When no line arrived within the poll
    time, the status left in the slot is drawn as the title
    [no cmd <now>] and the message in two rows, [waiting for cmd] and
    [...]; the title ends inside the screen exactly when the clock value
    has at most eight digits. *)
Theorem heartbeat_on_screen (now : Z) (st : device) :
  0 <= now ->
  let m := monitor_cmd (main_loop now PollTimeout st) in
  draw_message Display_default (title m) (message m)
  = [Fill 0; Text ("no cmd " ++ str_int now) 3 3; HLine 0 14 128 1;
     Rect 0 0 128 64 1; Text "waiting for cmd" 3 23; Text "..." 51 46; Show] /\
  (text_inside Display_default (Text ("no cmd " ++ str_int now) 3 3)
   <-> now < 10 ^ 8).
Proof.
  intros Hnow. cbv zeta. split.
  - reflexivity.
  - rewrite title_inside, len_append. change (len "no cmd ") with 7.
    rewrite <- (str_int_length_iff now 8 Hnow ltac:(lia)). lia.
Qed.

Lemma heartbeat_on_screen_witness :
  ~ text_inside Display_default (Text "no cmd 1700000000" 3 3).
Proof.
  intros H.
  apply (proj2 (heartbeat_on_screen 1700000000 device_init ltac:(lia))) in H.
  vm_compute in H. discriminate H.
Defined.

End StatusOnScreen.
